(** * The ledger of the wallet / mining demo (src/app.py)

    A shallow embedding of the Flask route handlers that touch the ledger:
    [register], [recharge], [topup], [dollar], [daily_claim], [buy],
    [mining] and [mining_claim], over an explicit database state.

    Modelling conventions.
    - The four SQLAlchemy tables are lists of records in insertion order.
      Handlers take the database and return the committed database together
      with the HTTP response.  Every handler either commits all its changes
      or none; an unhandled Python exception (attribute access on [None])
      is the response [ServerError] with the database unchanged.
    - [Float] columns and parsed form amounts are exact rationals [Q]: the
      development idealises IEEE doubles (no rounding, no inf, no nan).
    - A [DateTime] is an integer number of microseconds ([Z]), a
      [timedelta] likewise; [datetime.utcnow()] is an input of the handler
      that calls it.  The clock is not assumed to be monotone.
    - Random or opaque values (the generated referral code, the password
      hash) are inputs of [register].
    - Columns no handler reads ([created_at], [description]) are omitted. *)

From Stdlib Require Import ZArith QArith Lqa List String Bool Arith Lia Sorted.
Import ListNotations.

Local Open Scope string_scope.
Local Open Scope Q_scope.

(** ** Time *)

Module Clock.

Definition datetime := Z.
Definition timedelta := Z.

Bind Scope Z_scope with datetime timedelta.

(** [timedelta(hours=n)] *)
Definition hours (n : Z) : timedelta := (n * 3600 * 1000000)%Z.

(** [timedelta.total_seconds()] *)
Definition total_seconds (d : timedelta) : Q := Qmake d 1000000.

(** [(now - since).total_seconds() / 3600.0] *)
Definition hours_between (since now : datetime) : Q :=
  total_seconds (now - since)%Z / 3600.

End Clock.
Export Clock.

(** [x < y] on amounts, as a boolean. *)
Definition Qltb (x y : Q) : bool := negb (Qle_bool y x).

(** ** Models (the tables) *)

Record User := mkUser {
  u_id : nat;
  username : string;
  password_hash : string;
  balance : Q;
  referral_code : string;
  referred_by : option string;
  last_claim_at : option datetime
}.

Record Transaction := mkTransaction {
  t_user_id : nat;
  t_type : string;
  t_amount : Q;
  t_details : string
}.

Record Product := mkProduct {
  p_id : nat;
  p_name : string;
  slug : string;
  price : Q;
  hourly_rate : Q;
  active : bool
}.

Record Purchase := mkPurchase {
  pu_id : nat;
  pu_user_id : nat;
  product_id : nat;
  purchased_at : datetime;
  last_mined_at : option datetime;
  accrued : Q
}.

Record db := mkDb {
  users : list User;
  transactions : list Transaction;
  products : list Product;
  purchases : list Purchase
}.

(** The database after [create_all] with a given product catalogue
    ([init_db] seeds [seed_products]). *)
Definition empty_db (catalogue : list Product) : db :=
  mkDb [] [] catalogue [].

Definition seed_products : list Product :=
  [ mkProduct 1 "Starter Rig" "starter-rig" 100 (2 # 100) true;
    mkProduct 2 "Pro Miner" "pro-miner" 250 (6 # 100) true;
    mkProduct 3 "Mega Farm" "mega-farm" 500 (14 # 100) true ].

(** ** Field assignments *)

Definition set_balance (b : Q) (u : User) : User :=
  mkUser (u_id u) (username u) (password_hash u) b
         (referral_code u) (referred_by u) (last_claim_at u).

Definition set_last_claim_at (t : option datetime) (u : User) : User :=
  mkUser (u_id u) (username u) (password_hash u) (balance u)
         (referral_code u) (referred_by u) t.

Definition set_referred_by (r : option string) (u : User) : User :=
  mkUser (u_id u) (username u) (password_hash u) (balance u)
         (referral_code u) r (last_claim_at u).

Definition set_accrued (a : Q) (p : Purchase) : Purchase :=
  mkPurchase (pu_id p) (pu_user_id p) (product_id p)
             (purchased_at p) (last_mined_at p) a.

Definition set_last_mined_at (t : option datetime) (p : Purchase) : Purchase :=
  mkPurchase (pu_id p) (pu_user_id p) (product_id p)
             (purchased_at p) t (accrued p).

(** ** Session operations *)

(** [db.get(User, uid)] *)
Definition get_user (s : db) (uid : nat) : option User :=
  find (fun u => Nat.eqb (u_id u) uid) (users s).

(** Assignment to the fields of the row with primary key [uid]. *)
Definition update_user (uid : nat) (f : User -> User) (us : list User)
  : list User :=
  map (fun u => if Nat.eqb (u_id u) uid then f u else u) us.

Definition with_users (f : list User -> list User) (s : db) : db :=
  mkDb (f (users s)) (transactions s) (products s) (purchases s).

Definition with_purchases (ps : list Purchase) (s : db) : db :=
  mkDb (users s) (transactions s) (products s) ps.

(** [db.add(Transaction(...))] *)
Definition add_transaction (t : Transaction) (s : db) : db :=
  mkDb (users s) (transactions s ++ [t])%list (products s) (purchases s).

(** Next value of an autoincrement primary key (no row is ever deleted). *)
Definition next_id (ids : list nat) : nat := S (fold_right Nat.max 0%nat ids).

(** [db.add(Purchase(...))] *)
Definition add_purchase (p : Purchase) (s : db) : db :=
  mkDb (users s) (transactions s) (products s) (purchases s ++ [p])%list.

(** [db.query(User).filter_by(referral_code=code).first()] *)
Definition user_by_referral_code (s : db) (code : string) : option User :=
  find (fun u => String.eqb (referral_code u) code) (users s).

(** [db.query(Product).filter_by(slug=slug, active=True).first()] *)
Definition active_product_by_slug (s : db) (sl : string) : option Product :=
  find (fun p => String.eqb (slug p) sl && active p) (products s).

(** The [Purchase.product] relationship. *)
Definition product_of (s : db) (p : Purchase) : option Product :=
  find (fun pr => Nat.eqb (p_id pr) (product_id p)) (products s).

(** The [User.purchases] relationship. *)
Definition owns (uid : nat) (p : Purchase) : bool := Nat.eqb (pu_user_id p) uid.


(** Python truthiness of an optional string column. *)
Definition truthy (o : option string) : bool :=
  match o with
  | Some c => negb (String.eqb c "")
  | None => false
  end.

(** The value of [user.referred_by] used as the query argument. *)
Definition referred_code (u : User) : string :=
  match referred_by u with
  | Some c => c
  | None => ""
  end.

(** ** Responses *)

Inductive http_method := GET | POST.

Inductive category := success | danger | warning | info.

(** The flashed messages; formatted amounts are kept as values. *)
Inductive message :=
| Please_log_in                     (* "Please log in to continue." *)
| Username_and_password_required    (* "Username and password required." *)
| Registration_successful           (* "Registration successful. Please log in." *)
| Username_already_taken            (* "Username already taken." *)
| Recharged (amount : Q)            (* f"Recharged {amount:.2f} (demo)." *)
| Invalid_amount                    (* "Invalid amount." *)
| Topup_successful (amount : Q)     (* f"Diamond top-up of {amount:.2f} successful (demo)." *)
| Insufficient_or_invalid           (* "Insufficient balance or invalid amount." *)
| Enter_positive_amount             (* "Enter a positive amount." *)
| Invalid_action_or_insufficient    (* "Invalid action or insufficient balance." *)
| Exchanged (action : string) (amount : Q) (* f"{action.title()} {amount:.2f} (demo)." *)
| Next_claim_available_in (remaining : timedelta)
                                    (* f"Next claim available in {remaining}." *)
| Daily_bonus_claimed               (* "Daily bonus claimed!" *)
| Product_not_found                 (* "Product not found." *)
| Insufficient_to_buy               (* "Insufficient balance to buy this product." *)
| Product_purchased                 (* "Product purchased! Mining started." *)
| Claimed_from_mining (total : Q).  (* f"Claimed {total:.4f} from mining." *)

Inductive response :=
| RedirectTo (endpoint : string) (flash : option (category * message))
| Render (template : string) (flash : option (category * message))
| ServerError.

Definition handler := db -> db * response.

(** ** Handlers *)

(** [@login_required]; [sess] is [session.get("user_id")]. *)
Definition login_required (sess : option nat) (f : nat -> handler) : handler :=
  fun s =>
    match sess with
    | None => (s, RedirectTo "login" (Some (warning, Please_log_in)))
    | Some uid => f uid s
    end.

(** [register]: [name] is the stripped form field, [pw_hash] the result of
    [generate_password_hash], [code] the result of [gen_ref_code()], [ref]
    is [session.get("ref")].  The unique constraints on [username] and
    [referral_code] raise [IntegrityError]. *)
Definition register (m : http_method) (name password pw_hash code : string)
           (ref : option string) : handler :=
  fun s =>
    match m with
    | GET => (s, Render "register.html" None)
    | POST =>
      if String.eqb name "" || String.eqb password "" then
        (s, RedirectTo "register" (Some (danger, Username_and_password_required)))
      else if existsb (fun u => String.eqb (username u) name
                                || String.eqb (referral_code u) code) (users s)
      then (s, RedirectTo "register" (Some (danger, Username_already_taken)))
      else
        let user := mkUser (next_id (map u_id (users s))) name pw_hash 0
                           code ref None in
        (with_users (fun us => (us ++ [user])%list) s,
         RedirectTo "login" (Some (success, Registration_successful)))
    end.

Definition recharge (m : http_method) (amount : Q) (uid : nat) : handler :=
  fun s =>
    match m with
    | GET => (s, Render "recharge.html" None)
    | POST =>
      if Qltb 0 amount then
        match get_user s uid with
        | None => (s, ServerError)
        | Some user =>
          let s1 := with_users
                      (update_user uid (fun u => set_balance (balance u + amount) u)) s in
          let s2 := add_transaction
                      (mkTransaction (u_id user) "recharge" amount
                                     "Mobile recharge (demo credit)") s1 in
          (s2, RedirectTo "balance" (Some (success, Recharged amount)))
        end
      else (s, Render "recharge.html" (Some (danger, Invalid_amount)))
    end.

Definition topup (m : http_method) (amount : Q) (uid : nat) : handler :=
  fun s =>
    match m with
    | GET => (s, Render "topup.html" None)
    | POST =>
      if Qltb 0 amount then
        match get_user s uid with
        | None => (s, ServerError)
        | Some user =>
          if Qle_bool amount (balance user) then
            let s1 := with_users
                        (update_user uid (fun u => set_balance (balance u - amount) u)) s in
            let s2 := add_transaction
                        (mkTransaction (u_id user) "topup" (- amount)
                                       "Diamond top-up (demo spend)") s1 in
            (s2, RedirectTo "balance" (Some (success, Topup_successful amount)))
          else (s, Render "topup.html" (Some (danger, Insufficient_or_invalid)))
        end
      else (s, Render "topup.html" (Some (danger, Insufficient_or_invalid)))
    end.

(** [dollar]: [action] is [request.form.get("action")]. *)
Definition dollar (m : http_method) (action : option string) (amount : Q)
           (uid : nat) : handler :=
  fun s =>
    match m with
    | GET => (s, Render "dollar.html" None)
    | POST =>
      if Qle_bool amount 0 then
        (s, RedirectTo "dollar" (Some (danger, Enter_positive_amount)))
      else
        let rejected :=
            (s, RedirectTo "dollar" (Some (danger, Invalid_action_or_insufficient))) in
        match action with
        | None => rejected
        | Some a =>
          if String.eqb a "buy" then
            match get_user s uid with
            | None => (s, ServerError)
            | Some user =>
              if Qle_bool amount (balance user) then
                let s1 := with_users
                            (update_user uid
                               (fun u => set_balance (balance u - amount) u)) s in
                let s2 := add_transaction
                            (mkTransaction (u_id user) "buy" (- amount)
                                           "Bought dollars (demo)") s1 in
                (s2, RedirectTo "balance" (Some (success, Exchanged a amount)))
              else rejected
            end
          else if String.eqb a "sell" then
            match get_user s uid with
            | None => (s, ServerError)
            | Some user =>
              let s1 := with_users
                          (update_user uid
                             (fun u => set_balance (balance u + amount) u)) s in
              let s2 := add_transaction
                          (mkTransaction (u_id user) "sell" amount
                                         "Sold dollars (demo)") s1 in
              (s2, RedirectTo "balance" (Some (success, Exchanged a amount)))
            end
          else rejected
        end
    end.

(** [timedelta(hours=24) - (now - user.last_claim_at)] *)
Definition remaining (last now : datetime) : timedelta :=
  (hours 24 - (now - last))%Z.

(** The guard of [daily_claim]:
    [user.last_claim_at and now - user.last_claim_at < timedelta(hours=24)];
    when it holds the result is the [remaining] duration that is flashed. *)
Definition claim_too_soon (user : User) (now : datetime) : option timedelta :=
  match last_claim_at user with
  | Some last =>
    if (now - last <? hours 24)%Z then Some (remaining last now) else None
  | None => None
  end.

Definition bonus : Q := 5.
Definition referral_bonus : Q := 1.

(** The referral block of [daily_claim] (the [if user.referred_by:] part);
    [user] is the claimer as loaded at the start of the request. *)
Definition referral_effect (user : User) (s : db) : db :=
  if truthy (referred_by user) then
    match user_by_referral_code s (referred_code user) with
    | Some referrer =>
      let s1 := add_transaction
                  (mkTransaction (u_id referrer) "bonus" referral_bonus
                                 ("Referral bonus from " ++ username user)) s in
      let s2 := with_users
                  (update_user (u_id referrer)
                     (fun u => set_balance (balance u + referral_bonus) u)) s1 in
      with_users (update_user (u_id user) (set_referred_by None)) s2
    | None => s
    end
  else s.

Definition daily_claim (now : datetime) (uid : nat) : handler :=
  fun s =>
    match get_user s uid with
    | None => (s, ServerError)
    | Some user =>
      match claim_too_soon user now with
      | Some wait =>
        (s, RedirectTo "dashboard" (Some (warning, Next_claim_available_in wait)))
      | None =>
        let s1 := with_users
                    (update_user uid
                       (fun u => set_last_claim_at (Some now)
                                   (set_balance (balance u + bonus) u))) s in
        let s2 := add_transaction
                    (mkTransaction (u_id user) "bonus" bonus "Daily claim bonus") s1 in
        (referral_effect user s2,
         RedirectTo "balance" (Some (success, Daily_bonus_claimed)))
      end
    end.

(** [buy]: [t_purchased] and [t_mined] are the values returned by the two
    column defaults [default=datetime.utcnow] of [Purchase.purchased_at]
    and [Purchase.last_mined_at], each evaluated when the row is
    inserted. *)
Definition buy (sl : string) (t_purchased t_mined : datetime) (uid : nat)
  : handler :=
  fun s =>
    match get_user s uid with
    | None =>
      match active_product_by_slug s sl with
      | None => (s, RedirectTo "index" (Some (danger, Product_not_found)))
      | Some _ => (s, ServerError)
      end
    | Some user =>
      match active_product_by_slug s sl with
      | None => (s, RedirectTo "index" (Some (danger, Product_not_found)))
      | Some product =>
        if Qltb (balance user) (price product) then
          (s, RedirectTo "product_page" (Some (danger, Insufficient_to_buy)))
        else
          let s1 := with_users
                      (update_user uid
                         (fun u => set_balance (balance u - price product) u)) s in
          let purchase := mkPurchase (next_id (map pu_id (purchases s)))
                                     (u_id user) (p_id product)
                                     t_purchased (Some t_mined) 0 in
          let s2 := add_purchase purchase s1 in
          let s3 := add_transaction
                      (mkTransaction (u_id user) "buy_product" (- price product)
                                     ("Bought " ++ p_name product)) s2 in
          (s3, RedirectTo "mining" (Some (success, Product_purchased)))
      end
    end.

(** The body of the loop of [mining] for one purchase; [None] is the
    [AttributeError] of [p.product.hourly_rate] on a dangling product. *)
Definition accrue (s : db) (now : datetime) (p : Purchase) : option Purchase :=
  let since := match last_mined_at p with
               | Some t => t
               | None => purchased_at p
               end in
  let hrs := hours_between since now in
  if Qltb 0 hrs then
    match product_of s p with
    | Some product =>
      Some (set_last_mined_at (Some now)
              (set_accrued (accrued p + hourly_rate product * hrs) p))
    | None => None
    end
  else Some p.

(** The loop [for p in user.purchases] of [mining] over the table. *)
Fixpoint accrue_all (s : db) (now : datetime) (uid : nat) (ps : list Purchase)
  : option (list Purchase) :=
  match ps with
  | [] => Some []
  | p :: rest =>
    if owns uid p then
      match accrue s now p with
      | None => None
      | Some p' =>
        match accrue_all s now uid rest with
        | None => None
        | Some rest' => Some (p' :: rest')
        end
      end
    else
      match accrue_all s now uid rest with
      | None => None
      | Some rest' => Some (p :: rest')
      end
  end.

Definition mining (now : datetime) (uid : nat) : handler :=
  fun s =>
    match get_user s uid with
    | None => (s, ServerError)
    | Some user =>
      match accrue_all s now (u_id user) (purchases s) with
      | None => (s, ServerError)
      | Some ps => (with_purchases ps s, Render "mining.html" None)
      end
    end.

(** The loop of [mining_claim]: returns the table after the loop and the
    running [total]. *)
Fixpoint claim_loop (uid : nat) (ps : list Purchase) (total : Q)
  : list Purchase * Q :=
  match ps with
  | [] => ([], total)
  | p :: rest =>
    if owns uid p && Qltb 0 (accrued p) then
      let (rest', total') := claim_loop uid rest (total + accrued p) in
      (set_accrued 0 p :: rest', total')
    else
      let (rest', total') := claim_loop uid rest total in
      (p :: rest', total')
  end.

Definition mining_claim (uid : nat) : handler :=
  fun s =>
    match get_user s uid with
    | None => (s, ServerError)
    | Some user =>
      let (ps, total) := claim_loop (u_id user) (purchases s) 0 in
      let s1 := with_purchases ps s in
      let s2 :=
          if Qltb 0 total then
            add_transaction
              (mkTransaction (u_id user) "mining" total "Claimed mining earnings")
              (with_users
                 (update_user uid (fun u => set_balance (balance u + total) u)) s1)
          else s1 in
      (s2, RedirectTo "balance" (Some (success, Claimed_from_mining total)))
    end.

(** ** Requests and runs *)

Inductive request :=
| Register (m : http_method) (name password pw_hash code : string)
           (ref : option string)
| Recharge (sess : option nat) (m : http_method) (amount : Q)
| Topup (sess : option nat) (m : http_method) (amount : Q)
| Dollar (sess : option nat) (m : http_method) (action : option string)
         (amount : Q)
| DailyClaim (sess : option nat) (now : datetime)
| Buy (sess : option nat) (sl : string) (t_purchased t_mined : datetime)
| Mining (sess : option nat) (now : datetime)
| MiningClaim (sess : option nat).

Definition handle (r : request) : handler :=
  match r with
  | Register m name password pw_hash code ref =>
    register m name password pw_hash code ref
  | Recharge sess m amount => login_required sess (recharge m amount)
  | Topup sess m amount => login_required sess (topup m amount)
  | Dollar sess m action amount => login_required sess (dollar m action amount)
  | DailyClaim sess now => login_required sess (daily_claim now)
  | Buy sess sl t1 t2 => login_required sess (buy sl t1 t2)
  | Mining sess now => login_required sess (mining now)
  | MiningClaim sess => login_required sess (mining_claim)
  end.

Definition step (s : db) (r : request) : db := fst (handle r s).

(** The database after serving the requests in order. *)
Definition run (rs : list request) (s : db) : db := fold_left step rs s.

(** ** Specification vocabulary *)

(** The [Transaction] rows of one user, and the sum of their amounts. *)
Definition transactions_of (uid : nat) (txs : list Transaction)
  : list Transaction :=
  filter (fun t => Nat.eqb (t_user_id t) uid) txs.

Definition sum_amounts (txs : list Transaction) : Q :=
  fold_right (fun t acc => t_amount t + acc) 0 txs.

(** The balance of the user with primary key [uid] (0 when there is none). *)
Definition balance_of (s : db) (uid : nat) : Q :=
  match get_user s uid with
  | Some u => balance u
  | None => 0
  end.

(** [ledger_step s s' new]: going from [s] to [s'] appends the rows [new]
    to the transaction table, and every balance moves by the sum of the
    amounts of the new rows of that user. *)
Definition ledger_step (s s' : db) (new : list Transaction) : Prop :=
  transactions s' = (transactions s ++ new)%list /\
  forall uid,
    balance_of s' uid
    == balance_of s uid + sum_amounts (transactions_of uid new).

(** [covered s new]: the rows [new] never take a balance of [s] below
    zero. *)
Definition covered (s : db) (new : list Transaction) : Prop :=
  forall uid,
    0 <= balance_of s uid ->
    0 <= balance_of s uid + sum_amounts (transactions_of uid new).

(** The rows the referral block appends. *)
Definition referral_rows (user : User) (s : db) : list Transaction :=
  if truthy (referred_by user) then
    match user_by_referral_code s (referred_code user) with
    | Some referrer =>
      [mkTransaction (u_id referrer) "bonus" referral_bonus
                     ("Referral bonus from " ++ username user)]
    | None => []
    end
  else [].

(** What every request does to the ledger. *)
Definition request_ok (s s' : db) : Prop :=
  exists new, ledger_step s s' new /\ covered s new.



Definition user_ids (s : db) : list nat := map u_id (users s).

Definition keyed (s : db) : Prop := NoDup (user_ids s).

(** The database after the daily bonus itself (before the referral
    block). *)
Definition credited (now : datetime) (uid : nat) (s : db) : db :=
  add_transaction
    (mkTransaction uid "bonus" bonus "Daily claim bonus")
    (with_users
       (update_user uid
          (fun u => set_last_claim_at (Some now)
                      (set_balance (balance u + bonus) u))) s).

(** What the referral block does to the row [u] of a user: nothing, or a
    credit of the referral bonus, or clearing [referred_by], or both. *)
Definition referral_update (user : User) (s : db) (u : User) : User :=
  if truthy (referred_by user) then
    match user_by_referral_code s (referred_code user) with
    | Some r =>
      let u1 := if Nat.eqb (u_id u) (u_id r)
                then set_balance (balance u + referral_bonus) u else u in
      if Nat.eqb (u_id u1) (u_id user) then set_referred_by None u1 else u1
    | None => u
    end
  else u.

(** The rows a request appends to the transaction table. *)
Definition appended (s : db) (r : request) : list Transaction :=
  skipn (List.length (transactions s)) (transactions (step s r)).

(** The response of an accepted daily claim. *)
Definition is_claimed (resp : response) : bool :=
  match resp with
  | RedirectTo _ (Some (success, Daily_bonus_claimed)) => true
  | _ => false
  end.

(** [claimed_at uid s r] is the time of the claim when [r] is a daily claim
    of user [uid] that is accepted in [s]. *)
Definition claimed_at (uid : nat) (s : db) (r : request) : option datetime :=
  match r with
  | DailyClaim (Some c) now =>
    if Nat.eqb c uid && is_claimed (snd (handle r s)) then Some now else None
  | _ => None
  end.

Definition is_referral_row (t : Transaction) : bool :=
  String.prefix "Referral bonus from " (t_details t).

(** The referral rows appended by a daily claim of user [uid]. *)
Definition referral_paid (uid : nat) (s : db) (r : request)
  : list Transaction :=
  match r with
  | DailyClaim (Some c) _ =>
    if Nat.eqb c uid then filter is_referral_row (appended s r) else []
  | _ => []
  end.



(** Two rows of the same user that agree on everything a claim can depend
    on except the balance. *)
Definition same_profile (u u' : User) : Prop :=
  u_id u' = u_id u /\ username u' = username u
  /\ referral_code u' = referral_code u
  /\ last_claim_at u' = last_claim_at u
  /\ referred_by u' = referred_by u.

(** The instant from which [accrue] counts:
    [p.last_mined_at or p.purchased_at]. *)
Definition mined_since (p : Purchase) : datetime :=
  match last_mined_at p with
  | Some t => t
  | None => purchased_at p
  end.

(** The purchases the loop of [mining_claim] resets, and what it does to a
    row of the table. *)
Definition claimable (uid : nat) (p : Purchase) : bool :=
  owns uid p && Qltb 0 (accrued p).

Definition claimed (uid : nat) (p : Purchase) : Purchase :=
  if claimable uid p then set_accrued 0 p else p.


(** The invariant of the data model on [Purchase.accrued], together with
    what maintains it: no hourly rate of the catalogue is negative. *)
Definition accrued_nonneg (s : db) : Prop :=
  Forall (fun pr => 0 <= hourly_rate pr) (products s)
  /\ Forall (fun p => 0 <= accrued p) (purchases s).

(** ** The routes around the ledger *)

(** [init_db]: the catalogue is seeded only when the product table is
    empty. *)
Definition init_db (s : db) : db :=
  if Nat.eqb (List.length (products s)) 0
  then mkDb (users s) (transactions s) (products s ++ seed_products)%list
            (purchases s)
  else s.

(** [index]: [db.query(Product).filter_by(active=True).all()], the
    products handed to the template. *)
Definition index (s : db) : list Product := filter active (products s).

(** [product_page]: the product handed to the template, or [None] for the
    redirect with "Product not found.". *)
Definition product_page (sl : string) (s : db) : option Product :=
  active_product_by_slug s sl.

(** [db.query(User).filter_by(referred_by=code).count()] *)
Definition refers (code : string) (u : User) : bool :=
  match referred_by u with
  | Some c => String.eqb c code
  | None => false
  end.

Definition ref_count (s : db) (code : string) : nat :=
  List.length (filter (refers code) (users s)).

(** [dashboard] and [profile]: the values handed to the template; [None]
    is the [AttributeError] on a missing user. *)
Definition dashboard (uid : nat) (s : db)
  : option (User * list Product * nat) :=
  match get_user s uid with
  | Some user => Some (user, index s, ref_count s (referral_code user))
  | None => None
  end.

Definition profile (uid : nat) (s : db) : option (User * nat) :=
  match get_user s uid with
  | Some user => Some (user, ref_count s (referral_code user))
  | None => None
  end.

(** ** The browser session *)

(** The two keys the application keeps in the Flask session. *)
Record session := mkSession {
  sess_user_id : option nat;
  sess_ref : option string
}.

(** [session.clear()] *)
Definition no_session : session := mkSession None None.

Inductive auth_message :=
| Logged_in              (* "Logged in!" *)
| Invalid_credentials    (* "Invalid credentials." *)
| Logged_out.            (* "Logged out." *)

Inductive reply :=
| Ledger (resp : response)
| AuthRedirect (endpoint : string) (flash : option (category * auth_message))
| AuthRender (template : string).

(** [referral_entry]: [session["ref"] = code] (the cookie of the same name
    is never read). *)
Definition referral_entry (code : string) (c : session) : session * reply :=
  (mkSession (sess_user_id c) (Some code), AuthRedirect "register" None).

(** [db.query(User).filter_by(username=name).first()] *)
Definition user_by_username (s : db) (name : string) : option User :=
  find (fun u => String.eqb (username u) name) (users s).

(** [logout] *)
Definition logout (c : session) : session * reply :=
  (no_session, AuthRedirect "index" (Some (info, Logged_out))).

(** The response of a registration that was committed. *)
Definition is_registered (resp : response) : bool :=
  match resp with
  | RedirectTo _ (Some (success, Registration_successful)) => true
  | _ => false
  end.

(** [register] with its session effects: the referral code is read from
    the session, and [session.pop("ref", None)] runs after the commit. *)
Definition register_session (m : http_method)
           (name password pw_hash code : string) (c : session) (s : db)
  : session * db * reply :=
  let (s', resp) := register m name password pw_hash code (sess_ref c) s in
  (if is_registered resp then mkSession (sess_user_id c) None else c,
   s', Ledger resp).

(** A request as the browser of session [c] sends it: the session fields
    of the request are those of the cookie. *)
Definition with_session (c : session) (r : request) : request :=
  match r with
  | Register m name password pw_hash code _ =>
    Register m name password pw_hash code (sess_ref c)
  | Recharge _ m amount => Recharge (sess_user_id c) m amount
  | Topup _ m amount => Topup (sess_user_id c) m amount
  | Dollar _ m action amount => Dollar (sess_user_id c) m action amount
  | DailyClaim _ now => DailyClaim (sess_user_id c) now
  | Buy _ sl t1 t2 => Buy (sess_user_id c) sl t1 t2
  | Mining _ now => Mining (sess_user_id c) now
  | MiningClaim _ => MiningClaim (sess_user_id c)
  end.

(** The user a request acts for. *)
Definition session_user (r : request) : option nat :=
  match r with
  | Register _ _ _ _ _ _ => None
  | Recharge sess _ _ => sess
  | Topup sess _ _ => sess
  | Dollar sess _ _ _ => sess
  | DailyClaim sess _ => sess
  | Buy sess _ _ _ => sess
  | Mining sess _ => sess
  | MiningClaim sess => sess
  end.

Inductive visit :=
| Referral_entry (code : string)
| Login (m : http_method) (name password : string)
| Logout
| Request (r : request).

Section Site.

(** [check_password_hash] of werkzeug, an opaque predicate on a stored hash
    and a submitted password. *)
Variable check_password_hash : string -> string -> bool.

(** [login] *)
Definition login (m : http_method) (name password : string) (c : session)
           (s : db) : session * reply :=
  match m with
  | GET => (c, AuthRender "login.html")
  | POST =>
    match user_by_username s name with
    | Some user =>
      if check_password_hash (password_hash user) password then
        (mkSession (Some (u_id user)) (sess_ref c),
         AuthRedirect "dashboard" (Some (success, Logged_in)))
      else (c, AuthRedirect "login" (Some (danger, Invalid_credentials)))
    | None => (c, AuthRedirect "login" (Some (danger, Invalid_credentials)))
    end
  end.

(** One visit of the browser holding session [c]. *)
Definition serve (v : visit) (c : session) (s : db) : session * db * reply :=
  match v with
  | Referral_entry code =>
    let (c', rp) := referral_entry code c in (c', s, rp)
  | Login m name password =>
    let (c', rp) := login m name password c s in (c', s, rp)
  | Logout => let (c', rp) := logout c in (c', s, rp)
  | Request (Register m name password pw_hash code _) =>
    register_session m name password pw_hash code c s
  | Request r =>
    let (s', resp) := handle (with_session c r) s in (c, s', Ledger resp)
  end.

(** The site: one session per browser, and the database.  [browse] serves
    the visits of any number of browsers in order and collects the
    replies. *)
Definition site : Type := (nat -> session) * db.

Definition fresh_site (catalogue : list Product) : site :=
  (fun _ => no_session, empty_db catalogue).

Definition visit_site (st : site) (bv : nat * visit) : site * reply :=
  let (cookies, s) := st in
  let (browser, v) := bv in
  match serve v (cookies browser) s with
  | (c', s', rp) =>
    ((fun b => if Nat.eqb b browser then c' else cookies b, s'), rp)
  end.

Fixpoint browse (vs : list (nat * visit)) (st : site) : site * list reply :=
  match vs with
  | [] => (st, [])
  | bv :: rest =>
    let (st', rp) := visit_site st bv in
    let (final, rps) := browse rest st' in
    (final, rp :: rps)
  end.

End Site.

(** ** Identity columns *)

(** The columns of a user and of a purchase that no handler assigns after
    the row is inserted. *)
Definition user_key (u : User) : nat * string * string * string :=
  (u_id u, username u, password_hash u, referral_code u).

Definition purchase_key (p : Purchase) : nat * nat * nat * datetime :=
  (pu_id p, pu_user_id p, product_id p, purchased_at p).

(** Every purchase refers to a product of the catalogue. *)
Definition linked (s : db) : Prop :=
  Forall (fun p => product_of s p <> None) (purchases s).

(** ** Sample runs *)

Module Sample.

(** A visitor follows the link [/r/ABCD1234] although no user has that
    referral code, and registers as alice. *)
Definition alice_registers : request :=
  Register POST "alice" "secret" "pbkdf2:alice" "AAAA1111" (Some "ABCD1234").

(** Later somebody registers and is given the code [ABCD1234]. *)
Definition bob_registers : request :=
  Register POST "bob" "secret" "pbkdf2:bob" "ABCD1234" None.

Definition alice_claims (now : datetime) : request :=
  DailyClaim (Some 1%nat) now.

Definition s0 : db := run [alice_registers] (empty_db seed_products).
Definition s1 : db := step s0 (alice_claims 0).
Definition s2 : db := step s1 bob_registers.
Definition s3 : db := step s2 (alice_claims (hours 24)).

Definition alice : User :=
  mkUser 1 "alice" "pbkdf2:alice" 0 "AAAA1111" (Some "ABCD1234") None.


(** alice recharges 100 and buys the Starter Rig when the clock reads
    100 hours (both column defaults read the same instant). *)
Definition mining_db : db :=
  run [alice_registers;
       Recharge (Some 1%nat) POST 100;
       Buy (Some 1%nat) "starter-rig" (hours 100) (hours 100)]
      (empty_db seed_products).

(** alice with a balance of 100 and no purchase. *)
Definition funded_db : db :=
  run [alice_registers; Recharge (Some 1%nat) POST 100]
      (empty_db seed_products).

Definition starter_rig : Product :=
  mkProduct 1 "Starter Rig" "starter-rig" 100 (2 # 100) true.

Definition rig : Purchase :=
  mkPurchase 1 1 1 (hours 100) (Some (hours 100)) 0.

End Sample.

(** ** Invariants and relations of the remaining routes *)

(** The three unique columns of the user table. *)
Definition unique_users (s : db) : Prop :=
  NoDup (map u_id (users s))
  /\ NoDup (map username (users s))
  /\ NoDup (map referral_code (users s)).

(** The tables of [s'] extend those of [s]. *)
Definition extends (s s' : db) : Prop :=
  products s' = products s
  /\ (exists new, transactions s' = (transactions s ++ new)%list)
  /\ (exists new,
         map user_key (users s') = (map user_key (users s) ++ new)%list)
  /\ (exists new,
         map purchase_key (purchases s')
         = (map purchase_key (purchases s) ++ new)%list).

(** What [mining] at time [now] for user [uid] may do to a purchase row. *)
Definition accrued_to (s : db) (now : datetime) (uid : nat)
           (p p' : Purchase) : Prop :=
  purchase_key p' = purchase_key p
  /\ (owns uid p = false -> p' = p)
  /\ (mined_since p <= mined_since p')%Z
  /\ (p' = p
      \/ ((mined_since p < now)%Z
          /\ last_mined_at p' = Some now
          /\ exists product,
              product_of s p = Some product
              /\ accrued p'
                 = accrued p
                   + hourly_rate product * hours_between (mined_since p) now)).

(** Every purchase has its product and every session that is logged in
    holds the id of an existing user. *)
Definition sound (st : site) : Prop :=
  linked (snd st)
  /\ forall b uid,
      sess_user_id (fst st b) = Some uid -> get_user (snd st) uid <> None.

(** Distinct ids, an existing owner and a set [last_mined_at]. *)
Definition purchases_ok (s : db) : Prop :=
  NoDup (map pu_id (purchases s))
  /\ Forall (fun p => get_user s (pu_user_id p) <> None
                      /\ last_mined_at p <> None)
            (purchases s).

(** ** Basic facts *)

Lemma Qltb_lt (x y : Q) : Qltb x y = true <-> x < y.
Proof.
  unfold Qltb. rewrite negb_true_iff.
  split; intros H.
  - apply Qnot_le_lt. intros Hle. apply Qle_bool_iff in Hle. congruence.
  - destruct (Qle_bool y x) eqn:E; [|reflexivity].
    apply Qle_bool_iff in E. apply Qle_not_lt in E. contradiction.
Qed.

Lemma Qltb_ge (x y : Q) : Qltb x y = false <-> y <= x.
Proof.
  unfold Qltb. rewrite negb_false_iff. apply Qle_bool_iff.
Qed.

Lemma Qle_bool_gt (x y : Q) : Qle_bool x y = false <-> y < x.
Proof.
  rewrite <- Qltb_lt. unfold Qltb. rewrite negb_true_iff. reflexivity.
Qed.

Lemma find_append {A : Type} (f : A -> bool) (l l' : list A) :
  find f (l ++ l')
  = match find f l with
    | Some x => Some x
    | None => find f l'
    end.
Proof.
  induction l as [|x l IH]; simpl; [reflexivity|].
  destruct (f x); [reflexivity | exact IH].
Qed.

Lemma get_user_some (s : db) (uid : nat) (u : User) :
  get_user s uid = Some u -> In u (users s) /\ u_id u = uid.
Proof.
  unfold get_user. intros H. apply find_some in H.
  destruct H as [Hin Heq]. apply Nat.eqb_eq in Heq. auto.
Qed.

Lemma sum_amounts_app (a b : list Transaction) :
  sum_amounts (a ++ b) == sum_amounts a + sum_amounts b.
Proof.
  induction a as [|t a IH]; simpl.
  - lra.
  - rewrite IH. lra.
Qed.

Lemma transactions_of_app (uid : nat) (a b : list Transaction) :
  transactions_of uid (a ++ b)
  = (transactions_of uid a ++ transactions_of uid b)%list.
Proof. apply filter_app. Qed.

Lemma sum_of_app (uid : nat) (a b : list Transaction) :
  sum_amounts (transactions_of uid (a ++ b))
  == sum_amounts (transactions_of uid a) + sum_amounts (transactions_of uid b).
Proof. rewrite transactions_of_app. apply sum_amounts_app. Qed.

Lemma sum_of_single (uid : nat) (t : Transaction) :
  sum_amounts (transactions_of uid [t])
  == if Nat.eqb (t_user_id t) uid then t_amount t else 0.
Proof.
  unfold transactions_of. simpl.
  destruct (Nat.eqb (t_user_id t) uid); simpl; lra.
Qed.

(** Assignments through [update_user] keep primary keys, so a lookup after
    the assignment sees the assigned row. *)
Lemma find_update_user (uid uid' : nat) (f : User -> User) (us : list User) :
  (forall u, u_id (f u) = u_id u) ->
  find (fun u => Nat.eqb (u_id u) uid') (update_user uid f us)
  = option_map (fun u => if Nat.eqb (u_id u) uid then f u else u)
               (find (fun u => Nat.eqb (u_id u) uid') us).
Proof.
  intros Hid. induction us as [|u us IH]; simpl; [reflexivity|].
  destruct (Nat.eqb (u_id u) uid) eqn:E.
  - rewrite Hid. destruct (Nat.eqb (u_id u) uid'); simpl; [rewrite E|]; auto.
  - destruct (Nat.eqb (u_id u) uid'); simpl; [rewrite E|]; auto.
Qed.

Lemma get_user_update (s : db) (uid uid' : nat) (f : User -> User) :
  (forall u, u_id (f u) = u_id u) ->
  get_user (with_users (update_user uid f) s) uid'
  = option_map (fun u => if Nat.eqb (u_id u) uid then f u else u)
               (get_user s uid').
Proof. intros Hid. unfold get_user. simpl. apply find_update_user, Hid. Qed.

Lemma balance_of_update (s : db) (uid uid' : nat) (f : User -> User) (a : Q) :
  (forall u, u_id (f u) = u_id u) ->
  (forall u, balance (f u) == balance u + a) ->
  get_user s uid <> None ->
  balance_of (with_users (update_user uid f) s) uid'
  == balance_of s uid' + (if Nat.eqb uid uid' then a else 0).
Proof.
  intros Hid Hbal Hex. unfold balance_of.
  rewrite get_user_update by exact Hid.
  destruct (Nat.eqb uid uid') eqn:E.
  - apply Nat.eqb_eq in E. subst uid'.
    destruct (get_user s uid) as [u|] eqn:G; [|congruence]. simpl.
    apply get_user_some in G. destruct G as [_ G].
    rewrite G, Nat.eqb_refl. apply Hbal.
  - destruct (get_user s uid') as [u|] eqn:G; simpl; [|lra].
    apply get_user_some in G. destruct G as [_ G].
    rewrite G, Nat.eqb_sym, E. lra.
Qed.

Lemma balance_of_update_same (s : db) (uid uid' : nat) (f : User -> User) :
  (forall u, u_id (f u) = u_id u) ->
  (forall u, balance (f u) = balance u) ->
  balance_of (with_users (update_user uid f) s) uid' = balance_of s uid'.
Proof.
  intros Hid Hbal. unfold balance_of. rewrite get_user_update by exact Hid.
  destruct (get_user s uid') as [u|]; simpl; [|reflexivity].
  destruct (Nat.eqb (u_id u) uid); [apply Hbal | reflexivity].
Qed.

(** ** One request against the ledger *)

Lemma balance_of_users (s s' : db) (uid : nat) :
  users s' = users s -> balance_of s' uid = balance_of s uid.
Proof. unfold balance_of, get_user. intros ->. reflexivity. Qed.

Lemma ledger_step_frame (s s' : db) :
  users s' = users s -> transactions s' = transactions s ->
  ledger_step s s' [].
Proof.
  intros Hu Ht. split.
  - rewrite Ht, app_nil_r. reflexivity.
  - intros uid. rewrite (balance_of_users s s' uid Hu). simpl. lra.
Qed.

Lemma ledger_step_trans (s s1 s2 : db) (n1 n2 : list Transaction) :
  ledger_step s s1 n1 -> ledger_step s1 s2 n2 ->
  ledger_step s s2 (n1 ++ n2).
Proof.
  intros [Ht1 Hb1] [Ht2 Hb2]. split.
  - rewrite Ht2, Ht1, app_assoc. reflexivity.
  - intros uid. rewrite Hb2, Hb1, sum_of_app. lra.
Qed.

(** A credit of [a] (a debit when [a] is negative) with its row. *)
Lemma ledger_step_credit (s s' : db) (uid : nat) (f : User -> User)
      (k d : string) (a : Q) :
  get_user s uid <> None ->
  (forall u, u_id (f u) = u_id u) ->
  (forall u, balance (f u) == balance u + a) ->
  users s' = update_user uid f (users s) ->
  transactions s' = (transactions s ++ [mkTransaction uid k a d])%list ->
  ledger_step s s' [mkTransaction uid k a d].
Proof.
  intros Hex Hid Hbal Hu Ht. split; [exact Ht|].
  intros uid'.
  rewrite (balance_of_users (with_users (update_user uid f) s) s' uid' Hu).
  rewrite (balance_of_update s uid uid' f a Hid Hbal Hex).
  rewrite sum_of_single. simpl. reflexivity.
Qed.

(** An assignment that leaves the balance alone. *)
Lemma ledger_step_touch (s s' : db) (uid : nat) (f : User -> User) :
  (forall u, u_id (f u) = u_id u) ->
  (forall u, balance (f u) = balance u) ->
  users s' = update_user uid f (users s) ->
  transactions s' = transactions s ->
  ledger_step s s' [].
Proof.
  intros Hid Hbal Hu Ht. split.
  - rewrite Ht, app_nil_r. reflexivity.
  - intros uid'.
    rewrite (balance_of_users (with_users (update_user uid f) s) s' uid' Hu).
    rewrite (balance_of_update_same s uid uid' f Hid Hbal). simpl. lra.
Qed.

Lemma user_by_referral_code_exists (s : db) (code : string) (r : User) :
  user_by_referral_code s code = Some r -> get_user s (u_id r) <> None.
Proof.
  unfold user_by_referral_code, get_user. intros H. apply find_some in H.
  destruct H as [Hin _]. intros Hnone.
  apply (find_none _ _ Hnone) in Hin. rewrite Nat.eqb_refl in Hin. discriminate.
Qed.

Lemma get_user_not_none (s : db) (uid : nat) (u : User) :
  get_user s uid = Some u -> get_user s uid <> None.
Proof. congruence. Qed.

Lemma covered_credits (s : db) (new : list Transaction) :
  Forall (fun t => 0 <= t_amount t) new -> covered s new.
Proof.
  intros Hall uid Hb.
  assert (0 <= sum_amounts (transactions_of uid new)); [|lra].
  induction Hall as [|t l Ht _ IH]; simpl; [lra|].
  destruct (Nat.eqb (t_user_id t) uid); simpl; lra.
Qed.

Lemma covered_debit (s : db) (uid : nat) (user : User) (k d : string)
      (amount : Q) :
  get_user s uid = Some user -> amount <= balance user ->
  covered s [mkTransaction uid k (- amount) d].
Proof.
  intros G Hle uid' Hb. rewrite sum_of_single. simpl.
  destruct (Nat.eqb uid uid') eqn:E; [|lra].
  apply Nat.eqb_eq in E. subst uid'.
  unfold balance_of in *. rewrite G in *. lra.
Qed.

Lemma referral_effect_ledger (user : User) (s : db) :
  ledger_step s (referral_effect user s) (referral_rows user s).
Proof.
  unfold referral_effect, referral_rows.
  destruct (truthy (referred_by user)); [|apply ledger_step_frame; reflexivity].
  destruct (user_by_referral_code s (referred_code user)) as [r|] eqn:R;
    [|apply ledger_step_frame; reflexivity].
  apply user_by_referral_code_exists in R.
  match goal with
  | |- ledger_step _ (with_users _ ?mid) ?rows =>
    change rows with (rows ++ [])%list;
    apply (ledger_step_trans s mid)
  end.
  - eapply ledger_step_credit with
        (f := fun u => set_balance (balance u + referral_bonus) u);
      try reflexivity; auto.
  - eapply ledger_step_touch with (f := set_referred_by None);
      try reflexivity; auto.
Qed.

Lemma referral_rows_credits (user : User) (s : db) :
  Forall (fun t => 0 <= t_amount t) (referral_rows user s).
Proof.
  unfold referral_rows.
  destruct (truthy _); [|constructor].
  destruct (user_by_referral_code _ _); repeat constructor.
  simpl. unfold referral_bonus. lra.
Qed.

Ltac by_credit f0 :=
  eexists; split;
  [eapply ledger_step_credit with (f := f0);
   [ | | | | reflexivity];
   [eapply get_user_not_none; eassumption
   | reflexivity
   | intros; simpl; lra
   | reflexivity]
  | ].

Ltac unchanged :=
  exists []; split;
  [apply ledger_step_frame; reflexivity | apply covered_credits; constructor].

Lemma register_ok m name password pw_hash code ref (s : db) :
  request_ok s (fst (register m name password pw_hash code ref s)).
Proof.
  unfold register.
  destruct m; [unchanged|].
  destruct (_ || _); [unchanged|].
  destruct (existsb _ _) eqn:E; [unchanged|].
  exists []. split; [|apply covered_credits; constructor].
  split; simpl; [rewrite app_nil_r; reflexivity|].
  intros uid. unfold balance_of, get_user. simpl.
  rewrite find_append.
  destruct (find _ (users s)); simpl; [lra|].
  match goal with |- context [if ?c then _ else _] => destruct c end;
    simpl; lra.
Qed.

Lemma recharge_ok m amount uid (s : db) :
  request_ok s (fst (recharge m amount uid s)).
Proof.
  unfold recharge.
  destruct m; [unchanged|].
  destruct (Qltb 0 amount) eqn:A; [|unchanged].
  destruct (get_user s uid) as [user|] eqn:G; [|unchanged].
  destruct (get_user_some _ _ _ G) as [_ ->]. simpl.
  by_credit (fun u => set_balance (balance u + amount) u).
  apply Qltb_lt in A. apply covered_credits. repeat constructor. simpl. lra.
Qed.

Lemma topup_ok m amount uid (s : db) :
  request_ok s (fst (topup m amount uid s)).
Proof.
  unfold topup.
  destruct m; [unchanged|].
  destruct (Qltb 0 amount); [|unchanged].
  destruct (get_user s uid) as [user|] eqn:G; [|unchanged].
  destruct (Qle_bool amount (balance user)) eqn:B; [|unchanged].
  destruct (get_user_some _ _ _ G) as [_ Hid]. rewrite Hid. simpl.
  by_credit (fun u => set_balance (balance u - amount) u).
  apply Qle_bool_iff in B. eapply covered_debit; eassumption.
Qed.

Lemma dollar_ok m action amount uid (s : db) :
  request_ok s (fst (dollar m action amount uid s)).
Proof.
  unfold dollar.
  destruct m; [unchanged|].
  destruct (Qle_bool amount 0) eqn:A; [unchanged|].
  destruct action as [a|]; [|unchanged].
  destruct (String.eqb a "buy").
  - destruct (get_user s uid) as [user|] eqn:G; [|unchanged].
    destruct (Qle_bool amount (balance user)) eqn:B; [|unchanged].
    destruct (get_user_some _ _ _ G) as [_ Hid]. rewrite Hid. simpl.
    by_credit (fun u => set_balance (balance u - amount) u).
    apply Qle_bool_iff in B. eapply covered_debit; eassumption.
  - destruct (String.eqb a "sell"); [|unchanged].
    destruct (get_user s uid) as [user|] eqn:G; [|unchanged].
    destruct (get_user_some _ _ _ G) as [_ ->]. simpl.
    by_credit (fun u => set_balance (balance u + amount) u).
    apply Qle_bool_gt in A. apply covered_credits. repeat constructor.
    simpl. lra.
Qed.

Lemma daily_claim_ok now uid (s : db) :
  request_ok s (fst (daily_claim now uid s)).
Proof.
  unfold daily_claim.
  destruct (get_user s uid) as [user|] eqn:G; [|unchanged].
  destruct (claim_too_soon user now); [unchanged|].
  simpl. eexists. split.
  - eapply ledger_step_trans; [|apply referral_effect_ledger].
    destruct (get_user_some _ _ _ G) as [_ Hid]. rewrite Hid.
    eapply ledger_step_credit with
        (f := fun u => set_last_claim_at (Some now)
                         (set_balance (balance u + bonus) u));
      [ | | | | reflexivity];
      [eapply get_user_not_none; eassumption
      | reflexivity | intros; simpl; lra | reflexivity].
  - apply covered_credits. constructor; [simpl; unfold bonus; lra|].
    apply referral_rows_credits.
Qed.

Lemma buy_ok sl t1 t2 uid (s : db) :
  request_ok s (fst (buy sl t1 t2 uid s)).
Proof.
  unfold buy.
  destruct (get_user s uid) as [user|] eqn:G.
  - destruct (active_product_by_slug s sl) as [product|]; [|unchanged].
    destruct (Qltb (balance user) (price product)) eqn:B; [unchanged|].
    destruct (get_user_some _ _ _ G) as [_ Hid]. rewrite Hid. simpl.
    by_credit (fun u => set_balance (balance u - price product) u).
    apply Qltb_ge in B. eapply covered_debit; eassumption.
  - destruct (active_product_by_slug s sl); unchanged.
Qed.

Lemma mining_ok now uid (s : db) :
  request_ok s (fst (mining now uid s)).
Proof.
  unfold mining.
  destruct (get_user s uid) as [user|]; [|unchanged].
  destruct (accrue_all s now (u_id user) (purchases s)); unchanged.
Qed.

Lemma mining_claim_ok uid (s : db) :
  request_ok s (fst (mining_claim uid s)).
Proof.
  unfold mining_claim.
  destruct (get_user s uid) as [user|] eqn:G; [|unchanged].
  destruct (claim_loop (u_id user) (purchases s) 0) as [ps total].
  destruct (Qltb 0 total) eqn:T; [|unchanged].
  destruct (get_user_some _ _ _ G) as [_ ->]. simpl.
  by_credit (fun u => set_balance (balance u + total) u).
  apply Qltb_lt in T. apply covered_credits. repeat constructor. simpl. lra.
Qed.

Lemma step_ok (s : db) (r : request) : request_ok s (step s r).
Proof.
  unfold step.
  destruct r as [m n p h c rf|[uid|] m a|[uid|] m a|[uid|] m act a
                 |[uid|] now|[uid|] sl t1 t2|[uid|] now|[uid|]];
    simpl; try unchanged.
  - apply register_ok.
  - apply recharge_ok.
  - apply topup_ok.
  - apply dollar_ok.
  - apply daily_claim_ok.
  - apply buy_ok.
  - apply mining_ok.
  - apply mining_claim_ok.
Qed.

(** ** Invariants of runs *)

Lemma run_app (rs rs' : list request) (s : db) :
  run (rs ++ rs') s = run rs' (run rs s).
Proof. apply fold_left_app. Qed.

Lemma run_invariant (P : db -> Prop) :
  (forall s r, P s -> P (step s r)) ->
  forall rs s, P s -> P (run rs s).
Proof.
  intros Hstep rs. induction rs as [|r rs IH]; intros s Hs; simpl; auto.
Qed.





(** ** Primary keys *)


Lemma next_id_above (ids : list nat) (n : nat) :
  In n ids -> (n < next_id ids)%nat.
Proof.
  unfold next_id. induction ids as [|i ids IH]; simpl; [tauto|].
  intros [->|Hin]; [lia|]. specialize (IH Hin). lia.
Qed.

Lemma next_id_fresh (ids : list nat) : ~ In (next_id ids) ids.
Proof. intros Hin. apply next_id_above in Hin. lia. Qed.




Lemma keyed_get_user (s : db) (u : User) :
  keyed s -> In u (users s) -> get_user s (u_id u) = Some u.
Proof.
  unfold keyed, user_ids, get_user.
  induction (users s) as [|v us IH]; simpl; [tauto|].
  intros Hnd [->|Hin]; [rewrite Nat.eqb_refl; reflexivity|].
  inversion Hnd as [|x l Hnotin Hnd']; subst.
  destruct (Nat.eqb (u_id v) (u_id u)) eqn:E; [|auto].
  apply Nat.eqb_eq in E. exfalso. apply Hnotin. rewrite E.
  apply in_map, Hin.
Qed.



(** ** The audit trail and solvency *)



(** ** The daily claim *)

Lemma find_update (p : User -> bool) (uid : nat) (f : User -> User)
      (us : list User) :
  (forall u, p (f u) = p u) ->
  find p (update_user uid f us)
  = option_map (fun u => if Nat.eqb (u_id u) uid then f u else u) (find p us).
Proof.
  intros Hp. induction us as [|u us IH]; simpl; [reflexivity|].
  destruct (Nat.eqb (u_id u) uid) eqn:E; simpl; [rewrite Hp|];
    destruct (p u); simpl; rewrite ?E; auto.
Qed.

Lemma user_by_referral_code_update (s : db) (uid : nat) (f : User -> User)
      (code : string) :
  (forall u, referral_code (f u) = referral_code u) ->
  user_by_referral_code (with_users (update_user uid f) s) code
  = option_map (fun u => if Nat.eqb (u_id u) uid then f u else u)
               (user_by_referral_code s code).
Proof.
  intros H. unfold user_by_referral_code. simpl. apply find_update.
  intros u. rewrite H. reflexivity.
Qed.

Lemma referrer_after_credit (now : datetime) (uid : nat) (s : db)
      (code : string) :
  user_by_referral_code (credited now uid s) code
  = option_map (fun u => if Nat.eqb (u_id u) uid
                         then set_last_claim_at (Some now)
                                (set_balance (balance u + bonus) u)
                         else u)
               (user_by_referral_code s code).
Proof.
  unfold credited.
  change (user_by_referral_code (add_transaction ?t ?x) code)
    with (user_by_referral_code x code).
  apply user_by_referral_code_update. reflexivity.
Qed.

Lemma referral_rows_after_credit (now : datetime) (uid : nat) (user : User)
      (s : db) :
  referral_rows user (credited now uid s) = referral_rows user s.
Proof.
  unfold referral_rows. rewrite referrer_after_credit.
  destruct (truthy _); [|reflexivity].
  destruct (user_by_referral_code s _) as [r|]; simpl; [|reflexivity].
  destruct (Nat.eqb (u_id r) uid); reflexivity.
Qed.

Lemma daily_claim_accepted (now : datetime) (uid : nat) (user : User) (s : db) :
  get_user s uid = Some user ->
  claim_too_soon user now = None ->
  daily_claim now uid s
  = (referral_effect user (credited now uid s),
     RedirectTo "balance" (Some (success, Daily_bonus_claimed))).
Proof.
  intros G C. unfold daily_claim. rewrite G, C.
  destruct (get_user_some _ _ _ G) as [_ ->]. reflexivity.
Qed.

Lemma daily_claim_rejected (now : datetime) (uid : nat) (user : User) (s : db)
      (wait : timedelta) :
  get_user s uid = Some user ->
  claim_too_soon user now = Some wait ->
  daily_claim now uid s
  = (s, RedirectTo "dashboard" (Some (warning, Next_claim_available_in wait))).
Proof. intros G C. unfold daily_claim. rewrite G, C. reflexivity. Qed.




Lemma get_user_credited (now : datetime) (uid uid' : nat) (s : db) :
  get_user (credited now uid s) uid'
  = option_map (fun u => if Nat.eqb (u_id u) uid
                         then set_last_claim_at (Some now)
                                (set_balance (balance u + bonus) u)
                         else u)
               (get_user s uid').
Proof.
  unfold credited.
  change (get_user (add_transaction ?t ?x) uid') with (get_user x uid').
  apply get_user_update. reflexivity.
Qed.

Lemma get_user_referral_effect (user : User) (s : db) (uid' : nat) :
  get_user (referral_effect user s) uid'
  = option_map (referral_update user s) (get_user s uid').
Proof.
  unfold referral_effect, referral_update.
  destruct (truthy _).
  - destruct (user_by_referral_code s (referred_code user)) as [r|]; simpl.
    + rewrite get_user_update by reflexivity.
      match goal with
      | |- context [get_user (with_users ?g (add_transaction ?t s)) uid'] =>
        change (get_user (with_users g (add_transaction t s)) uid')
          with (get_user (with_users g s) uid')
      end.
      rewrite get_user_update by reflexivity.
      destruct (get_user s uid') as [u|]; reflexivity.
    + destruct (get_user s uid'); reflexivity.
  - simpl. destruct (get_user s uid'); reflexivity.
Qed.

(** ** Observing a run *)

Lemma same_profile_refl (u : User) : same_profile u u.
Proof. repeat split. Qed.

Lemma profile_frame (s s' : db) (uid : nat) (u : User) :
  users s' = users s -> get_user s uid = Some u ->
  exists u', get_user s' uid = Some u' /\ same_profile u u'.
Proof.
  intros Hu G. exists u. split; [|apply same_profile_refl].
  unfold get_user in *. rewrite Hu. exact G.
Qed.

Lemma profile_update (s s' : db) (uid0 uid : nat) (f : User -> User) (u : User) :
  (forall v, same_profile v (f v)) ->
  users s' = update_user uid0 f (users s) ->
  get_user s uid = Some u ->
  exists u', get_user s' uid = Some u' /\ same_profile u u'.
Proof.
  intros Hf Hu G. unfold get_user in *. rewrite Hu.
  rewrite find_update_user by (intros v; apply Hf). rewrite G. simpl.
  destruct (Nat.eqb (u_id u) uid0); eexists; split; try reflexivity;
    [apply Hf | apply same_profile_refl].
Qed.

Lemma balance_only (g : User -> Q) (v : User) :
  same_profile v (set_balance (g v) v).
Proof. repeat split. Qed.

Ltac profile_same :=
  eapply profile_frame; [reflexivity | eassumption].

Ltac profile_balance g0 :=
  eapply profile_update with (f := fun u => set_balance (g0 u) u);
  [intros v; apply (balance_only g0) | reflexivity | eassumption].

(** Requests other than daily claims keep the profile of every user. *)
Lemma step_profile (s : db) (r : request) (uid : nat) (u : User) :
  (forall sess now, r <> DailyClaim sess now) ->
  get_user s uid = Some u ->
  exists u', get_user (step s r) uid = Some u' /\ same_profile u u'.
Proof.
  intros Hr G. unfold step.
  destruct r as [m n p h c rf|[c|] m a|[c|] m a|[c|] m act a
                 |sess now|[c|] sl t1 t2|[c|] now|[c|]];
    simpl; try profile_same.
  - unfold register. destruct m; [profile_same|].
    destruct (_ || _); [profile_same|].
    destruct (existsb _ _); [profile_same|].
    exists u. split; [|apply same_profile_refl].
    unfold get_user in *. simpl. rewrite find_append, G. reflexivity.
  - unfold recharge. destruct m; [profile_same|].
    destruct (Qltb _ _); [|profile_same].
    destruct (get_user s c); [|profile_same].
    simpl. profile_balance (fun u => balance u + a).
  - unfold topup. destruct m; [profile_same|].
    destruct (Qltb _ _); [|profile_same].
    destruct (get_user s c); [|profile_same].
    destruct (Qle_bool _ _); [|profile_same].
    simpl. profile_balance (fun u => balance u - a).
  - unfold dollar. destruct m; [profile_same|].
    destruct (Qle_bool _ _); [profile_same|].
    destruct act as [a0|]; [|profile_same].
    destruct (String.eqb a0 "buy").
    + destruct (get_user s c); [|profile_same].
      destruct (Qle_bool _ _); [|profile_same].
      simpl. profile_balance (fun u => balance u - a).
    + destruct (String.eqb a0 "sell"); [|profile_same].
      destruct (get_user s c); [|profile_same].
      simpl. profile_balance (fun u => balance u + a).
  - exfalso. apply (Hr sess now). reflexivity.
  - unfold buy. destruct (get_user s c);
      destruct (active_product_by_slug s sl) as [product|]; try profile_same.
    destruct (Qltb _ _); [profile_same|].
    simpl. profile_balance (fun u => balance u - price product).
  - unfold mining. destruct (get_user s c); [|profile_same].
    destruct (accrue_all _ _ _ _); profile_same.
  - unfold mining_claim. destruct (get_user s c); [|profile_same].
    destruct (claim_loop _ _ _) as [ps total].
    destruct (Qltb _ _); [|profile_same].
    simpl. profile_balance (fun u => balance u + total).
Qed.

Lemma skipn_length_app {A : Type} (l new : list A) :
  skipn (List.length l) (l ++ new) = new.
Proof. induction l as [|x l IH]; simpl; auto. Qed.

Lemma appended_unchanged (s : db) (r : request) :
  step s r = s -> appended s r = [].
Proof. unfold appended. intros ->. apply skipn_all. Qed.

Lemma prefix_append (a b : string) : String.prefix a (a ++ b) = true.
Proof.
  induction a as [|c a IH]; simpl; [destruct b; reflexivity|].
  destruct (Ascii.ascii_dec c c); [exact IH | congruence].
Qed.

Lemma filter_referral_rows (user : User) (s : db) :
  filter is_referral_row (referral_rows user s) = referral_rows user s.
Proof.
  unfold referral_rows.
  destruct (truthy _); [|reflexivity].
  destruct (user_by_referral_code _ _); [|reflexivity].
  unfold filter, is_referral_row, t_details. rewrite prefix_append. reflexivity.
Qed.

Lemma referral_effect_transactions (user : User) (s : db) :
  transactions (referral_effect user s)
  = (transactions s ++ referral_rows user s)%list.
Proof. apply referral_effect_ledger. Qed.

Section DailyClaimRequest.

Variables (s : db) (c : nat) (now : datetime).

Let r := DailyClaim (Some c) now.

Lemma claim_refused_observed (uid : nat) (resp : response) :
  daily_claim now c s = (s, resp) -> is_claimed resp = false ->
  step s r = s /\ claimed_at uid s r = None /\ referral_paid uid s r = [].
Proof.
  intros H Hresp. subst r.
  assert (Hs : step s (DailyClaim (Some c) now) = s) by (unfold step; simpl; rewrite H; reflexivity).
  split; [exact Hs|]. split.
  - unfold claimed_at. simpl. rewrite H. simpl. rewrite Hresp.
    rewrite andb_false_r. reflexivity.
  - unfold referral_paid. rewrite (appended_unchanged _ _ Hs).
    destruct (Nat.eqb c uid); reflexivity.
Qed.

Lemma claim_accepted_observed (uid : nat) (user : User) :
  get_user s c = Some user -> claim_too_soon user now = None ->
  step s r = referral_effect user (credited now c s)
  /\ appended s r
     = mkTransaction c "bonus" bonus "Daily claim bonus"
                     :: referral_rows user s
  /\ claimed_at uid s r = (if Nat.eqb c uid then Some now else None)
  /\ referral_paid uid s r
     = (if Nat.eqb c uid then referral_rows user s else []).
Proof.
  intros G C. pose proof (daily_claim_accepted now c user s G C) as H.
  subst r.
  assert (Hs : step s (DailyClaim (Some c) now)
               = referral_effect user (credited now c s))
    by (unfold step; simpl; rewrite H; reflexivity).
  assert (Ha : appended s (DailyClaim (Some c) now)
               = mkTransaction c "bonus" bonus "Daily claim bonus"
                               :: referral_rows user s).
  { unfold appended. rewrite Hs, referral_effect_transactions.
    rewrite referral_rows_after_credit. unfold credited. simpl.
    rewrite <- app_assoc. apply skipn_length_app. }
  repeat split; auto.
  - unfold claimed_at. simpl. rewrite H. simpl.
    rewrite andb_true_r. reflexivity.
  - unfold referral_paid. rewrite Ha.
    destruct (Nat.eqb c uid); [|reflexivity].
    simpl. apply filter_referral_rows.
Qed.

End DailyClaimRequest.

Lemma referral_update_fields (user : User) (s : db) (u : User) :
  u_id (referral_update user s u) = u_id u
  /\ username (referral_update user s u) = username u
  /\ referral_code (referral_update user s u) = referral_code u
  /\ last_claim_at (referral_update user s u) = last_claim_at u
  /\ referred_by (referral_update user s u)
     = match referral_rows user s with
       | [] => referred_by u
       | _ :: _ =>
         if Nat.eqb (u_id u) (u_id user) then None else referred_by u
       end.
Proof.
  unfold referral_update, referral_rows.
  destruct (truthy _); [|repeat split].
  destruct (user_by_referral_code _ _) as [rr|]; [|repeat split].
  destruct (Nat.eqb (u_id u) (u_id rr)); simpl;
    destruct (Nat.eqb (u_id u) (u_id user)); repeat split.
Qed.

(** How any request moves the row of user [uid]: the last claim time moves
    exactly at an accepted daily claim of [uid], and [referred_by] is
    cleared exactly when such a claim appends a referral row. *)
Lemma step_user (s : db) (r : request) (uid : nat) (u : User) :
  get_user s uid = Some u ->
  exists u',
    get_user (step s r) uid = Some u'
    /\ username u' = username u
    /\ referral_code u' = referral_code u
    /\ last_claim_at u'
       = match claimed_at uid s r with
         | Some t => Some t
         | None => last_claim_at u
         end
    /\ referred_by u'
       = match referral_paid uid s r with
         | [] => referred_by u
         | _ :: _ => None
         end.
Proof.
  intros G.
  assert (Hother :
            (forall sess now, r <> DailyClaim sess now) ->
            claimed_at uid s r = None /\ referral_paid uid s r = []).
  { intros Hr. destruct r; try (split; reflexivity).
    exfalso. eapply Hr. reflexivity. }
  destruct r as [m n p h c rf|sess m a|sess m a|sess m act a
                 |sess now|sess sl t1 t2|sess now|sess];
    try (match goal with
         | |- context [step s ?r0] =>
           assert (Hd : forall sess now, r0 <> DailyClaim sess now)
             by discriminate;
           destruct (Hother Hd) as [-> ->];
           destruct (step_profile s r0 uid u Hd G)
             as [u' [G' [_ [Hn [Hc [Hl Hr]]]]]];
           exists u'; auto
         end).
  destruct sess as [c|]; [|exists u; repeat split; exact G].
  destruct (get_user s c) as [user|] eqn:Gc.
  - destruct (claim_too_soon user now) as [wait|] eqn:C.
    + destruct (claim_refused_observed s c now uid _
                  (daily_claim_rejected now c user s wait Gc C) eq_refl)
        as [-> [-> ->]].
      exists u. auto.
    + destruct (claim_accepted_observed s c now uid user Gc C)
        as [-> [_ [-> ->]]].
      rewrite get_user_referral_effect, get_user_credited, G. simpl.
      eexists. split; [reflexivity|].
      destruct (get_user_some _ _ _ G) as [_ Hu].
      destruct (get_user_some _ _ _ Gc) as [_ Huser].
      match goal with
      | |- context [referral_update user ?s2 ?u1] =>
        destruct (referral_update_fields user s2 u1)
          as [_ [-> [-> [-> ->]]]]
      end.
      rewrite referral_rows_after_credit, Hu, Huser, (Nat.eqb_sym c uid).
      destruct (Nat.eqb uid c) eqn:E; simpl; rewrite ?Hu, ?E;
        destruct (referral_rows user s); repeat split.
  - assert (H : daily_claim now c s = (s, ServerError))
      by (unfold daily_claim; rewrite Gc; reflexivity).
    destruct (claim_refused_observed s c now uid _ H eq_refl) as [-> [-> ->]].
    exists u. auto.
Qed.

(** ** Runs of daily claims *)



Section RunsOfOneUser.

Variable uid : nat.





End RunsOfOneUser.

(** ** The referral *)

(** C3, as stated, fails: alice's [referred_by] resolves to no user, her
    claim is accepted, and [referred_by] is still set afterwards; once the
    code exists, her next claim pays the referrer. *)
Lemma unresolved_referral_not_cleared :
  get_user Sample.s0 1 = Some Sample.alice
  /\ truthy (referred_by Sample.alice) = true
  /\ user_by_referral_code Sample.s0 "ABCD1234" = None
  /\ is_claimed (snd (handle (Sample.alice_claims 0) Sample.s0)) = true
  /\ option_map referred_by (get_user Sample.s1 1) = Some (Some "ABCD1234")
  /\ map t_amount (appended Sample.s2 (Sample.alice_claims (hours 24)))
     = [bonus; referral_bonus]
  /\ map t_user_id (appended Sample.s2 (Sample.alice_claims (hours 24)))
     = [1%nat; 2%nat].
Proof. repeat split. Qed.

(** C3, amended.  When the claimer's [referred_by] is set but resolves to no
    user, an accepted claim does the daily bonus and nothing else: no
    referral row, no other user touched, and [referred_by] is left as it
    was; a later accepted claim, made when the code resolves to a user [rr],
    appends the referral row for [rr]. *)
Theorem unresolved_referral_left_in_place :
  forall (s : db) (uid : nat) (user : User) (now : datetime),
    get_user s uid = Some user ->
    truthy (referred_by user) = true ->
    user_by_referral_code s (referred_code user) = None ->
    claim_too_soon user now = None ->
    let s' := fst (daily_claim now uid s) in
    s' = credited now uid s
    /\ transactions s'
       = (transactions s
            ++ [mkTransaction uid "bonus" bonus "Daily claim bonus"])%list
    /\ get_user s' uid
       = Some (set_last_claim_at (Some now)
                 (set_balance (balance user + bonus) user))
    /\ option_map referred_by (get_user s' uid) = Some (referred_by user)
    /\ (forall uid', uid' <> uid -> get_user s' uid' = get_user s uid')
    /\ forall (later : db) (user' rr : User) (now' : datetime),
        get_user later uid = Some user' ->
        referred_by user' = referred_by user ->
        claim_too_soon user' now' = None ->
        user_by_referral_code later (referred_code user) = Some rr ->
        appended later (DailyClaim (Some uid) now')
        = [mkTransaction uid "bonus" bonus "Daily claim bonus";
           mkTransaction (u_id rr) "bonus" referral_bonus
                         ("Referral bonus from " ++ username user')].
Proof.
  intros s uid user now G T R C s'.
  assert (Hs : s' = credited now uid s).
  { unfold s'. rewrite (daily_claim_accepted now uid user s G C). simpl.
    unfold referral_effect. rewrite T, referrer_after_credit, R. reflexivity. }
  destruct (get_user_some _ _ _ G) as [_ Hid].
  assert (Hg : get_user s' uid
               = Some (set_last_claim_at (Some now)
                         (set_balance (balance user + bonus) user))).
  { rewrite Hs, get_user_credited, G. simpl. rewrite Hid, Nat.eqb_refl.
    reflexivity. }
  repeat split.
  - exact Hs.
  - rewrite Hs. reflexivity.
  - exact Hg.
  - rewrite Hg. reflexivity.
  - intros uid' Hne. rewrite Hs, get_user_credited.
    destruct (get_user s uid') as [v|] eqn:Gv; [|reflexivity]. simpl.
    destruct (get_user_some _ _ _ Gv) as [_ ->].
    apply Nat.eqb_neq in Hne. rewrite Hne. reflexivity.
  - intros later user' rr now' G' Href C' R'.
    destruct (claim_accepted_observed later uid now' uid user' G' C')
      as [_ [-> _]].
    unfold referral_rows, referred_code. rewrite Href.
    fold (referred_code user). rewrite T, R'. reflexivity.
Qed.

Lemma unresolved_referral_left_in_place_witness :
  option_map referred_by (get_user (fst (daily_claim 0 1 Sample.s0)) 1)
  = Some (Some "ABCD1234").
Proof.
  apply (unresolved_referral_left_in_place
           Sample.s0 1 Sample.alice 0 eq_refl eq_refl eq_refl eq_refl).
Defined.





(** ** The 24 hour window *)



(** ** Accrual *)

Ltac time_lia := unfold datetime, timedelta in *; lia.

Lemma hours_between_pos (t1 t2 : datetime) :
  0 < hours_between t1 t2 <-> (t1 < t2)%Z.
Proof.
  unfold hours_between, total_seconds, Qdiv, Qmult, Qinv, Qlt, datetime in *.
  simpl. lia.
Qed.

Lemma accrue_elapsed (s : db) (now : datetime) (p : Purchase)
      (product : Product) :
  product_of s p = Some product -> (mined_since p < now)%Z ->
  accrue s now p
  = Some (set_last_mined_at (Some now)
            (set_accrued
               (accrued p
                + hourly_rate product * hours_between (mined_since p) now)
               p)).
Proof.
  intros Hp Hlt. unfold accrue. fold (mined_since p).
  apply (proj2 (hours_between_pos _ _)) in Hlt. apply Qltb_lt in Hlt.
  rewrite Hlt, Hp. reflexivity.
Qed.












(** ** Claiming mining earnings *)

Lemma claim_loop_table (uid : nat) (ps : list Purchase) :
  forall total, fst (claim_loop uid ps total) = map (claimed uid) ps.
Proof.
  induction ps as [|p ps IH]; intros total; simpl; [reflexivity|].
  unfold claimed at 1, claimable.
  destruct (owns uid p && Qltb 0 (accrued p)).
  - specialize (IH (total + accrued p)).
    destruct (claim_loop uid ps (total + accrued p)). simpl in *.
    rewrite IH. reflexivity.
  - specialize (IH total). destruct (claim_loop uid ps total). simpl in *.
    rewrite IH. reflexivity.
Qed.


Lemma claimable_positive (uid : nat) (p : Purchase) :
  claimable uid p = true -> owns uid p = true /\ 0 < accrued p.
Proof.
  unfold claimable. intros H. apply andb_true_iff in H.
  destruct H as [Ho Hp]. apply Qltb_lt in Hp. auto.
Qed.




Lemma owns_claimed (uid uid' : nat) (p : Purchase) :
  owns uid' (claimed uid p) = owns uid' p.
Proof. unfold claimed. destruct (claimable uid p); reflexivity. Qed.



(** The database [mining_claim] commits, in closed form. *)
Lemma mining_claim_result (uid : nat) (user : User) (s : db) :
  get_user s uid = Some user ->
  let total := snd (claim_loop uid (purchases s) 0) in
  let s1 := with_purchases (map (claimed uid) (purchases s)) s in
  mining_claim uid s
  = (if Qltb 0 total then
       add_transaction
         (mkTransaction uid "mining" total "Claimed mining earnings")
         (with_users
            (update_user uid (fun u => set_balance (balance u + total) u)) s1)
     else s1,
     RedirectTo "balance" (Some (success, Claimed_from_mining total))).
Proof.
  intros G. unfold mining_claim. rewrite G.
  destruct (get_user_some _ _ _ G) as [_ ->].
  pose proof (claim_loop_table uid (purchases s) 0) as Ht.
  destruct (claim_loop uid (purchases s) 0) as [ps total]. simpl in *.
  rewrite Ht. reflexivity.
Qed.

Lemma with_purchases_same (s : db) : with_purchases (purchases s) s = s.
Proof. destruct s. reflexivity. Qed.



Lemma accrue_nonneg (s : db) (now : datetime) (p p' : Purchase) :
  Forall (fun pr => 0 <= hourly_rate pr) (products s) ->
  0 <= accrued p -> accrue s now p = Some p' -> 0 <= accrued p'.
Proof.
  intros Hrates Hp. unfold accrue.
  destruct (Qltb 0 _) eqn:E; [|intros [= <-]; exact Hp].
  destruct (product_of s p) as [pr|] eqn:P; [|discriminate].
  intros [= <-]. simpl. apply Qltb_lt in E.
  unfold product_of in P. apply find_some in P. destruct P as [Hin _].
  rewrite Forall_forall in Hrates. specialize (Hrates pr Hin).
  apply Qle_trans with (accrued p + 0); [lra|].
  apply Qplus_le_r. apply Qmult_le_0_compat; [exact Hrates | lra].
Qed.

Lemma accrue_all_nonneg (s : db) (now : datetime) (uid : nat) :
  Forall (fun pr => 0 <= hourly_rate pr) (products s) ->
  forall ps ps',
    Forall (fun p => 0 <= accrued p) ps ->
    accrue_all s now uid ps = Some ps' ->
    Forall (fun p => 0 <= accrued p) ps'.
Proof.
  intros Hrates. induction ps as [|p ps IH]; intros ps' Hall H; simpl in H.
  - injection H as <-. constructor.
  - inversion Hall as [|x l Hp Hrest]; subst.
    destruct (owns uid p).
    + destruct (accrue s now p) as [p1|] eqn:A; [|discriminate].
      destruct (accrue_all s now uid ps) as [ps1|]; [|discriminate].
      injection H as <-. constructor; [|apply IH; auto].
      apply (accrue_nonneg s now p p1 Hrates Hp A).
    + destruct (accrue_all s now uid ps) as [ps1|]; [|discriminate].
      injection H as <-. constructor; [exact Hp | apply IH; auto].
Qed.

Lemma claimed_nonneg (uid : nat) (ps : list Purchase) :
  Forall (fun p => 0 <= accrued p) ps ->
  Forall (fun p => 0 <= accrued p) (map (claimed uid) ps).
Proof.
  intros H. induction H as [|p ps Hp _ IH]; simpl; constructor; [|exact IH].
  unfold claimed. destruct (claimable uid p); simpl; [lra | exact Hp].
Qed.

Lemma step_accrued_nonneg (s : db) (r : request) :
  accrued_nonneg s -> accrued_nonneg (step s r).
Proof.
  intros [Hrates Hacc]. unfold step, accrued_nonneg.
  destruct r as [m n p h c rf|[uid|] m a|[uid|] m a|[uid|] m act a
                 |[uid|] now|[uid|] sl t1 t2|[uid|] now|[uid|]];
    simpl; auto.
  - unfold register. destruct m; auto.
    destruct (_ || _); auto. destruct (existsb _ _); auto.
  - unfold recharge. destruct m; auto.
    destruct (Qltb _ _); auto. destruct (get_user _ _); auto.
  - unfold topup. destruct m; auto.
    destruct (Qltb _ _); auto. destruct (get_user _ _); auto.
    destruct (Qle_bool _ _); auto.
  - unfold dollar. destruct m; auto.
    destruct (Qle_bool _ _); auto. destruct act as [a0|]; auto.
    destruct (String.eqb a0 "buy").
    + destruct (get_user _ _); auto. destruct (Qle_bool _ _); auto.
    + destruct (String.eqb a0 "sell"); auto. destruct (get_user _ _); auto.
  - unfold daily_claim. destruct (get_user _ _) as [user|]; auto.
    destruct (claim_too_soon _ _); auto. simpl.
    unfold referral_effect. destruct (truthy _); auto.
    destruct (user_by_referral_code _ _); auto.
  - unfold buy. destruct (get_user _ _);
      destruct (active_product_by_slug _ _); auto.
    destruct (Qltb _ _); auto. simpl. split; [exact Hrates|].
    apply Forall_app. split; [exact Hacc|]. repeat constructor. simpl. lra.
  - unfold mining. destruct (get_user _ _) as [user|]; auto.
    destruct (accrue_all _ _ _ _) as [ps|] eqn:A; auto. simpl.
    split; [exact Hrates|].
    apply (accrue_all_nonneg s now (u_id user) Hrates _ _ Hacc A).
  - rewrite (surjective_pairing (mining_claim uid s)).
    destruct (get_user s uid) as [user|] eqn:G;
      [|unfold mining_claim; rewrite G; auto].
    rewrite (mining_claim_result uid user s G). simpl.
    destruct (Qltb 0 _); simpl; (split; [exact Hrates|]);
      apply claimed_nonneg, Hacc.
Qed.

Lemma run_accrued_nonneg (catalogue : list Product) (rs : list request) :
  Forall (fun pr => 0 <= hourly_rate pr) catalogue ->
  accrued_nonneg (run rs (empty_db catalogue)).
Proof.
  intros H. apply run_invariant; [apply step_accrued_nonneg|].
  split; [exact H | constructor].
Qed.

Lemma map_update_user {A : Type} (f : User -> A) (uid : nat)
      (g : User -> User) (us : list User) :
  (forall u, f (g u) = f u) -> map f (update_user uid g us) = map f us.
Proof.
  intros H. unfold update_user. rewrite map_map. apply map_ext.
  intros u. destruct (Nat.eqb (u_id u) uid); auto.
Qed.

Lemma map_claimed {A : Type} (f : Purchase -> A) (uid : nat)
      (ps : list Purchase) :
  (forall a p, f (set_accrued a p) = f p) ->
  map f (map (claimed uid) ps) = map f ps.
Proof.
  intros H. rewrite map_map. apply map_ext. intros p.
  unfold claimed. destruct (claimable uid p); auto.
Qed.

(** C10.  [mining_claim] for an existing user leaves the catalogue alone,
    only appends to the transaction table, changes no column of any user
    other than the claimer's [balance], and in the purchase table changes
    only [accrued], setting it to zero for the claimer's purchases with a
    positive [accrued]; [purchased_at] and [last_mined_at] of every
    purchase and [last_claim_at] and [referred_by] of every user are as
    before.  Hence the next [accrue] of a purchase still counts all the
    time since the purchase was last mined before the claim. *)
Theorem mining_claim_frame :
  forall (s : db) (uid : nat) (user : User),
    get_user s uid = Some user ->
    let s' := fst (mining_claim uid s) in
    products s' = products s
    /\ (exists new, transactions s' = (transactions s ++ new)%list)
    /\ purchases s' = map (claimed uid) (purchases s)
    /\ map (fun p => (pu_id p, pu_user_id p, product_id p,
                      purchased_at p, last_mined_at p)) (purchases s')
       = map (fun p => (pu_id p, pu_user_id p, product_id p,
                        purchased_at p, last_mined_at p)) (purchases s)
    /\ (forall p,
           claimed uid p = p
           \/ (owns uid p = true /\ 0 < accrued p
               /\ claimed uid p = set_accrued 0 p))
    /\ (users s' = users s
        \/ exists total,
            users s'
            = update_user uid (fun u => set_balance (balance u + total) u)
                          (users s))
    /\ map (fun u => (u_id u, username u, password_hash u, referral_code u,
                      referred_by u, last_claim_at u)) (users s')
       = map (fun u => (u_id u, username u, password_hash u, referral_code u,
                        referred_by u, last_claim_at u)) (users s)
    /\ (forall uid', uid' <> uid -> get_user s' uid' = get_user s uid')
    /\ forall (p : Purchase) (product : Product) (now : datetime),
        product_of s p = Some product ->
        (mined_since p < now)%Z ->
        mined_since (claimed uid p) = mined_since p
        /\ accrue s' now (claimed uid p)
           = Some (set_last_mined_at (Some now)
                     (set_accrued
                        (accrued (claimed uid p)
                         + hourly_rate product
                           * hours_between (mined_since p) now)
                        (claimed uid p))).
Proof.
  intros s uid user G s'.
  pose proof (mining_claim_result uid user s G) as H. simpl in H.
  set (total := snd (claim_loop uid (purchases s) 0)) in *.
  assert (Hprod : products s' = products s).
  { unfold s'. rewrite H. destruct (Qltb 0 total); reflexivity. }
  assert (Hpur : purchases s' = map (claimed uid) (purchases s)).
  { unfold s'. rewrite H. destruct (Qltb 0 total); reflexivity. }
  assert (Husers : users s' = users s
                   \/ users s'
                      = update_user uid
                          (fun u => set_balance (balance u + total) u)
                          (users s)).
  { unfold s'. rewrite H. destruct (Qltb 0 total); [right | left]; reflexivity. }
  split; [exact Hprod|].
  split.
  { unfold s'. rewrite H. destruct (Qltb 0 total); simpl.
    - eexists. reflexivity.
    - exists []. rewrite app_nil_r. reflexivity. }
  split; [exact Hpur|].
  split; [rewrite Hpur; apply map_claimed; reflexivity|].
  split.
  { intros p. unfold claimed. destruct (claimable uid p) eqn:C; [|left; auto].
    right. apply claimable_positive in C. tauto. }
  split; [destruct Husers as [Hu|Hu]; [left; exact Hu | right; eauto]|].
  split.
  { destruct Husers as [-> | ->]; [reflexivity|].
    apply map_update_user. reflexivity. }
  split.
  { intros uid' Hne. unfold get_user. destruct Husers as [-> | ->];
      [reflexivity|].
    rewrite find_update_user by reflexivity.
    destruct (find _ (users s)) as [v|] eqn:F; [|reflexivity]. simpl.
    apply find_some in F. destruct F as [_ F]. apply Nat.eqb_eq in F.
    rewrite F. apply Nat.eqb_neq in Hne. rewrite Hne. reflexivity. }
  intros p product now Hp Hlt.
  assert (Hm : mined_since (claimed uid p) = mined_since p).
  { unfold claimed. destruct (claimable uid p); reflexivity. }
  split; [exact Hm|].
  rewrite <- Hm. apply accrue_elapsed; [|rewrite Hm; exact Hlt].
  unfold product_of. rewrite Hprod.
  replace (product_id (claimed uid p)) with (product_id p); [exact Hp|].
  unfold claimed. destruct (claimable uid p); reflexivity.
Qed.

Lemma mining_claim_frame_witness :
  map last_mined_at
      (purchases
         (fst (mining_claim 1
                 (step Sample.mining_db
                       (Mining (Some 1%nat) (hours 100 + 9000000000))))))
  = [Some (hours 100 + 9000000000)%Z]
  /\ accrue (fst (mining_claim 1 Sample.mining_db)) (hours 101)
            (claimed 1 Sample.rig)
     = Some (set_last_mined_at (Some (hours 101))
               (set_accrued
                  (accrued (claimed 1 Sample.rig)
                   + hourly_rate Sample.starter_rig
                     * hours_between (mined_since Sample.rig) (hours 101))
                  (claimed 1 Sample.rig))).
Proof.
  split.
  - reflexivity.
  - apply (mining_claim_frame
             Sample.mining_db 1
             (mkUser 1 "alice" "pbkdf2:alice" (0 + 100 - 100) "AAAA1111"
                     (Some "ABCD1234") None)
             eq_refl).
    + reflexivity.
    + reflexivity.
Defined.

(** ** Debits *)

Lemma get_user_id (s : db) (uid : nat) (u : User) :
  get_user s uid = Some u -> u_id u = uid.
Proof. intros G. apply (get_user_some s uid u G). Qed.

Lemma debit_balance (s s' : db) (uid : nat) (user : User) (amount : Q) :
  get_user s uid = Some user ->
  users s' = update_user uid (fun u => set_balance (balance u - amount) u)
                         (users s) ->
  balance_of s' uid == balance user - amount.
Proof.
  intros G Hu. unfold balance_of, get_user. rewrite Hu.
  rewrite find_update_user by reflexivity.
  fold (get_user s uid). rewrite G. simpl.
  rewrite (get_user_id s uid user G), Nat.eqb_refl. simpl. reflexivity.
Qed.



(** ** Buying a product *)

Lemma active_product_by_slug_some (s : db) (sl : string) (product : Product) :
  active_product_by_slug s sl = Some product ->
  In product (products s) /\ slug product = sl /\ active product = true.
Proof.
  unfold active_product_by_slug. intros H. apply find_some in H.
  destruct H as [Hin H]. apply andb_true_iff in H. destruct H as [Hs Ha].
  apply String.eqb_eq in Hs. auto.
Qed.

(** C8, as stated, fails: [purchased_at] and [last_mined_at] are filled by
    two separate evaluations of the column default [datetime.utcnow]; when
    the second reading is 7 microseconds after the first, the purchase row
    has [last_mined_at] different from [purchased_at]. *)
Lemma purchase_timestamps_differ :
  snd (buy "starter-rig" (hours 100) (hours 100 + 7) 1 Sample.funded_db)
  = RedirectTo "mining" (Some (success, Product_purchased))
  /\ purchases
       (fst (buy "starter-rig" (hours 100) (hours 100 + 7) 1 Sample.funded_db))
     = [mkPurchase 1 1 1 (hours 100) (Some (hours 100 + 7)%Z) 0]
  /\ Some (hours 100) <> Some (hours 100 + 7)%Z.
Proof. repeat split. discriminate. Qed.

(** C8, amended.  [buy] for an existing user succeeds exactly when an
    active product has the slug and the balance is at least its price.  On
    success the price is subtracted from the balance, one row of kind
    "buy_product" and amount minus the price is appended, and one purchase
    is appended whose [accrued] is 0 and whose [purchased_at] and
    [last_mined_at] are the two readings of the clock taken by the column
    defaults at insertion (equal to one purchase time only when the two
    readings coincide).  When no active product has the slug, or the
    balance is below the price, it fails and the database is unchanged. *)
Theorem buy_product :
  forall (s : db) (uid : nat) (user : User) (sl : string)
         (t_purchased t_mined : datetime),
    get_user s uid = Some user ->
    (snd (buy sl t_purchased t_mined uid s)
     = RedirectTo "mining" (Some (success, Product_purchased))
     <-> exists product,
        active_product_by_slug s sl = Some product
        /\ price product <= balance user)
    /\ (active_product_by_slug s sl = None ->
        buy sl t_purchased t_mined uid s
        = (s, RedirectTo "index" (Some (danger, Product_not_found))))
    /\ (forall product,
           active_product_by_slug s sl = Some product ->
           (slug product = sl /\ active product = true)
           /\ (balance user < price product ->
               buy sl t_purchased t_mined uid s
               = (s, RedirectTo "product_page"
                       (Some (danger, Insufficient_to_buy))))
           /\ (price product <= balance user ->
               let s' := fst (buy sl t_purchased t_mined uid s) in
               balance_of s' uid == balance user - price product
               /\ transactions s'
                  = (transactions s
                       ++ [mkTransaction uid "buy_product" (- price product)
                                         ("Bought " ++ p_name product)])%list
               /\ purchases s'
                  = (purchases s
                       ++ [mkPurchase (next_id (map pu_id (purchases s)))
                                      uid (p_id product)
                                      t_purchased (Some t_mined) 0])%list
               /\ (forall now,
                      t_purchased = now -> t_mined = now ->
                      exists p,
                        purchases s' = (purchases s ++ [p])%list
                        /\ purchased_at p = now
                        /\ last_mined_at p = Some now
                        /\ accrued p = 0)
               /\ products s' = products s)).
Proof.
  intros s uid user sl t1 t2 G.
  pose proof (get_user_id s uid user G) as Hid.
  split; [|split].
  - unfold buy. rewrite G.
    destruct (active_product_by_slug s sl) as [product|] eqn:P.
    + destruct (Qltb (balance user) (price product)) eqn:B; simpl.
      * split; [discriminate|]. intros [pr [[= <-] Hle]].
        apply Qltb_lt in B. lra.
      * split; [|reflexivity]. intros _. exists product.
        apply Qltb_ge in B. auto.
    + simpl. split; [discriminate | intros [pr [[=] _]]].
  - intros P. unfold buy. rewrite G, P. reflexivity.
  - intros product P. split; [|split].
    + apply (active_product_by_slug_some s sl product P).
    + intros Hlt. unfold buy. rewrite G, P.
      apply Qltb_lt in Hlt. rewrite Hlt. reflexivity.
    + intros Hle s'. unfold s', buy. rewrite G, P.
      apply Qltb_ge in Hle. rewrite Hle, Hid. simpl.
      split; [eapply debit_balance; [exact G | reflexivity]|].
      split; [reflexivity|]. split; [reflexivity|].
      split; [|reflexivity].
      intros now -> ->. eexists. split; [reflexivity|]. repeat split.
Qed.

Lemma buy_product_witness :
  exists p,
    purchases (fst (buy "starter-rig" (hours 100) (hours 100) 1
                        Sample.funded_db))
    = (purchases Sample.funded_db ++ [p])%list
    /\ purchased_at p = hours 100
    /\ last_mined_at p = Some (hours 100)
    /\ accrued p = 0.
Proof.
  destruct (buy_product Sample.funded_db 1
              (mkUser 1 "alice" "pbkdf2:alice" (0 + 100) "AAAA1111"
                      (Some "ABCD1234") None)
              "starter-rig" (hours 100) (hours 100) eq_refl)
    as [_ [_ H]].
  destruct (H Sample.starter_rig eq_refl) as [_ [_ H2]].
  destruct H2 as [_ [_ [_ [H3 _]]]].
  - vm_compute. discriminate.
  - exact (H3 (hours 100) eq_refl eq_refl).
Defined.

(** ** Rows are inserted, never rewritten *)

Lemma user_key_update (uid : nat) (f : User -> User) (us : list User) :
  (forall u, user_key (f u) = user_key u) ->
  map user_key (update_user uid f us) = map user_key us.
Proof. apply map_update_user. Qed.

Lemma referral_effect_user_keys (user : User) (s : db) :
  map user_key (users (referral_effect user s)) = map user_key (users s).
Proof.
  unfold referral_effect.
  destruct (truthy _); [|reflexivity].
  destruct (user_by_referral_code _ _); [|reflexivity].
  simpl. rewrite !user_key_update; auto.
Qed.

(** What a request does to the user table: the identity columns of the
    existing rows stay, and at most one row is appended, by a committed
    registration. *)
Lemma step_users_shape (s : db) (r : request) :
  map user_key (users (step s r)) = map user_key (users s)
  \/ exists m name password pw_hash code ref,
      r = Register m name password pw_hash code ref
      /\ is_registered (snd (handle r s)) = true
      /\ users (step s r)
         = (users s
              ++ [mkUser (next_id (user_ids s)) name pw_hash 0 code ref
                         None])%list
      /\ existsb (fun u => String.eqb (username u) name
                           || String.eqb (referral_code u) code) (users s)
         = false.
Proof.
  unfold step.
  destruct r as [m n p h c rf|[uid|] m a|[uid|] m a|[uid|] m act a
                 |[uid|] now|[uid|] sl t1 t2|[uid|] now|[uid|]];
    simpl; auto.
  - unfold register. destruct m; auto.
    destruct (_ || _); auto. destruct (existsb _ _) eqn:E; auto.
    right. exists POST, n, p, h, c, rf. simpl. auto.
  - left. unfold recharge. destruct m; auto.
    destruct (Qltb _ _); auto. destruct (get_user _ _); auto.
    simpl. apply user_key_update. auto.
  - left. unfold topup. destruct m; auto.
    destruct (Qltb _ _); auto. destruct (get_user _ _); auto.
    destruct (Qle_bool _ _); auto.
    simpl. apply user_key_update. auto.
  - left. unfold dollar. destruct m; auto.
    destruct (Qle_bool _ _); auto. destruct act as [a0|]; auto.
    destruct (String.eqb a0 "buy").
    + destruct (get_user _ _); auto. destruct (Qle_bool _ _); auto.
      simpl. apply user_key_update. auto.
    + destruct (String.eqb a0 "sell"); auto. destruct (get_user _ _); auto.
      simpl. apply user_key_update. auto.
  - left. unfold daily_claim. destruct (get_user _ _); auto.
    destruct (claim_too_soon _ _); auto.
    simpl. rewrite referral_effect_user_keys.
    simpl. apply user_key_update. auto.
  - left. unfold buy. destruct (get_user _ _);
      destruct (active_product_by_slug _ _); auto.
    destruct (Qltb _ _); auto.
    simpl. apply user_key_update. auto.
  - left. unfold mining. destruct (get_user _ _); auto.
    destruct (accrue_all _ _ _ _); auto.
  - left. unfold mining_claim. destruct (get_user _ _); auto.
    destruct (claim_loop _ _ _). destruct (Qltb _ _); auto.
    simpl. apply user_key_update. auto.
Qed.

Lemma step_products (s : db) (r : request) : products (step s r) = products s.
Proof.
  unfold step.
  destruct r as [m n p h c rf|[uid|] m a|[uid|] m a|[uid|] m act a
                 |[uid|] now|[uid|] sl t1 t2|[uid|] now|[uid|]];
    simpl; auto.
  - unfold register. destruct m; auto.
    destruct (_ || _); auto. destruct (existsb _ _); auto.
  - unfold recharge. destruct m; auto.
    destruct (Qltb _ _); auto. destruct (get_user _ _); auto.
  - unfold topup. destruct m; auto.
    destruct (Qltb _ _); auto. destruct (get_user _ _); auto.
    destruct (Qle_bool _ _); auto.
  - unfold dollar. destruct m; auto.
    destruct (Qle_bool _ _); auto. destruct act as [a0|]; auto.
    destruct (String.eqb a0 "buy").
    + destruct (get_user _ _); auto. destruct (Qle_bool _ _); auto.
    + destruct (String.eqb a0 "sell"); auto. destruct (get_user _ _); auto.
  - unfold daily_claim. destruct (get_user _ _) as [user|]; auto.
    destruct (claim_too_soon _ _); auto. simpl.
    unfold referral_effect. destruct (truthy _); auto.
    destruct (user_by_referral_code _ _); auto.
  - unfold buy. destruct (get_user _ _);
      destruct (active_product_by_slug _ _); auto.
    destruct (Qltb _ _); auto.
  - unfold mining. destruct (get_user _ _); auto.
    destruct (accrue_all _ _ _ _); auto.
  - unfold mining_claim. destruct (get_user _ _); auto.
    destruct (claim_loop _ _ _). destruct (Qltb _ _); auto.
Qed.

Lemma accrue_key (s : db) (now : datetime) (p p' : Purchase) :
  accrue s now p = Some p' -> purchase_key p' = purchase_key p.
Proof.
  unfold accrue. destruct (Qltb _ _).
  - destruct (product_of s p); [|discriminate]. intros [= <-]. reflexivity.
  - intros [= <-]. reflexivity.
Qed.

Lemma accrue_all_keys (s : db) (now : datetime) (uid : nat) :
  forall ps ps',
    accrue_all s now uid ps = Some ps' ->
    map purchase_key ps' = map purchase_key ps.
Proof.
  induction ps as [|p ps IH]; intros ps' H; simpl in H.
  - injection H as <-. reflexivity.
  - destruct (owns uid p).
    + destruct (accrue s now p) as [p1|] eqn:A; [|discriminate].
      destruct (accrue_all s now uid ps) as [ps1|]; [|discriminate].
      injection H as <-. simpl.
      rewrite (accrue_key s now p p1 A), (IH ps1 eq_refl). reflexivity.
    + destruct (accrue_all s now uid ps) as [ps1|]; [|discriminate].
      injection H as <-. simpl. rewrite (IH ps1 eq_refl). reflexivity.
Qed.

(** What a request does to the purchase table: the identity columns of the
    existing rows stay, and at most one row is appended, by [buy], for the
    buyer and a product of the catalogue. *)
Lemma step_purchases_shape (s : db) (r : request) :
  map purchase_key (purchases (step s r)) = map purchase_key (purchases s)
  \/ exists uid user product t1 t2,
      session_user r = Some uid
      /\ get_user s uid = Some user
      /\ In product (products s)
      /\ purchases (step s r)
         = (purchases s
              ++ [mkPurchase (next_id (map pu_id (purchases s))) uid
                             (p_id product) t1 (Some t2) 0])%list.
Proof.
  unfold step.
  destruct r as [m n p h c rf|[uid|] m a|[uid|] m a|[uid|] m act a
                 |[uid|] now|[uid|] sl t1 t2|[uid|] now|[uid|]];
    simpl; auto.
  - unfold register. destruct m; auto.
    destruct (_ || _); auto. destruct (existsb _ _); auto.
  - unfold recharge. destruct m; auto.
    destruct (Qltb _ _); auto. destruct (get_user _ _); auto.
  - unfold topup. destruct m; auto.
    destruct (Qltb _ _); auto. destruct (get_user _ _); auto.
    destruct (Qle_bool _ _); auto.
  - unfold dollar. destruct m; auto.
    destruct (Qle_bool _ _); auto. destruct act as [a0|]; auto.
    destruct (String.eqb a0 "buy").
    + destruct (get_user _ _); auto. destruct (Qle_bool _ _); auto.
    + destruct (String.eqb a0 "sell"); auto. destruct (get_user _ _); auto.
  - unfold daily_claim. destruct (get_user _ _) as [user|]; auto.
    destruct (claim_too_soon _ _); auto. simpl.
    unfold referral_effect. destruct (truthy _); auto.
    destruct (user_by_referral_code _ _); auto.
  - unfold buy. destruct (get_user s uid) as [user|] eqn:G;
      destruct (active_product_by_slug s sl) as [product|] eqn:P; auto.
    destruct (Qltb _ _); auto.
    right. exists uid, user, product, t1, t2.
    destruct (get_user_some _ _ _ G) as [_ Hid].
    destruct (active_product_by_slug_some _ _ _ P) as [Hin _].
    simpl. rewrite Hid. auto.
  - unfold mining. destruct (get_user _ _) as [user|]; auto.
    destruct (accrue_all _ _ _ _) as [ps|] eqn:A; auto. simpl.
    left. apply (accrue_all_keys _ _ _ _ _ A).
  - destruct (get_user s uid) as [user|] eqn:G;
      [|unfold mining_claim; rewrite G; auto].
    rewrite (mining_claim_result uid user s G). simpl.
    left. destruct (Qltb 0 _); simpl; apply map_claimed; reflexivity.
Qed.

Lemma user_key_columns (us us' : list User) :
  map user_key us' = map user_key us ->
  map u_id us' = map u_id us
  /\ map username us' = map username us
  /\ map referral_code us' = map referral_code us.
Proof.
  intros H.
  assert (Hid : forall l, map u_id l
                          = map (fun k => fst (fst (fst k))) (map user_key l))
    by (intros l; rewrite map_map; reflexivity).
  assert (Hn : forall l, map username l
                         = map (fun k => snd (fst (fst k))) (map user_key l))
    by (intros l; rewrite map_map; reflexivity).
  assert (Hc : forall l, map referral_code l
                         = map (fun k => snd k) (map user_key l))
    by (intros l; rewrite map_map; reflexivity).
  rewrite (Hid us'), (Hid us), (Hn us'), (Hn us), (Hc us'), (Hc us), H.
  auto.
Qed.

Lemma existsb_taken (name code : string) (us : list User) :
  existsb (fun u => String.eqb (username u) name
                    || String.eqb (referral_code u) code) us = false ->
  ~ In name (map username us) /\ ~ In code (map referral_code us).
Proof.
  induction us as [|u us IH]; simpl; [tauto|].
  intros H. apply orb_false_iff in H. destruct H as [Hu Hrest].
  apply orb_false_iff in Hu. destruct Hu as [Hn Hc].
  apply String.eqb_neq in Hn. apply String.eqb_neq in Hc.
  destruct (IH Hrest) as [IHn IHc]. tauto.
Qed.

Lemma NoDup_snoc {A : Type} (l : list A) (x : A) :
  NoDup l -> ~ In x l -> NoDup (l ++ [x]).
Proof.
  intros Hl Hx. induction Hl as [|y l Hy Hl IH]; simpl.
  - repeat constructor. simpl. tauto.
  - constructor.
    + rewrite in_app_iff. simpl. intros [H|[H|[]]]; [tauto|].
      apply Hx. left. auto.
    + apply IH. intros H. apply Hx. right. exact H.
Qed.

Lemma step_unique_users (s : db) (r : request) :
  unique_users s -> unique_users (step s r).
Proof.
  intros [Hid [Hn Hc]]. unfold unique_users.
  destruct (step_users_shape s r)
    as [H | [m [name [pw [h [code [ref [_ [_ [-> E]]]]]]]]]].
  - destruct (user_key_columns _ _ H) as [-> [-> ->]]. auto.
  - destruct (existsb_taken _ _ _ E) as [En Ec].
    rewrite !map_app. simpl.
    split; [|split]; apply NoDup_snoc; auto.
    apply next_id_fresh.
Qed.

(** X1.  In every database reached from an empty one, primary keys,
    usernames and referral codes of users are pairwise distinct: [register]
    never commits a second user with a taken username or with a referral
    code that an existing user already has. *)
Theorem users_stay_unique :
  forall (catalogue : list Product) (rs : list request),
    let s := run rs (empty_db catalogue) in
    NoDup (map u_id (users s))
    /\ NoDup (map username (users s))
    /\ NoDup (map referral_code (users s)).
Proof.
  intros catalogue rs s.
  apply (run_invariant unique_users step_unique_users).
  repeat split; constructor.
Qed.

Lemma extends_refl (s : db) : extends s s.
Proof.
  repeat split; exists []; rewrite app_nil_r; reflexivity.
Qed.

Lemma extends_step (s0 s : db) (r : request) :
  extends s0 s -> extends s0 (step s r).
Proof.
  intros [Hp [[nt Ht] [[nu Hu] [np Hpu]]]]. split; [|split; [|split]].
  - rewrite step_products. exact Hp.
  - destruct (step_ok s r) as [new [[Hnew _] _]].
    exists (nt ++ new)%list. rewrite Hnew, Ht, app_assoc. reflexivity.
  - destruct (step_users_shape s r)
      as [H | [m [name [pw [h [code [ref [_ [_ [H _]]]]]]]]]].
    + exists nu. rewrite H. exact Hu.
    + eexists. rewrite H, map_app, Hu, <- app_assoc. reflexivity.
  - destruct (step_purchases_shape s r)
      as [H | [uid [user [product [t1 [t2 [_ [_ [_ H]]]]]]]]].
    + exists np. rewrite H. exact Hpu.
    + eexists. rewrite H, map_app, Hpu, <- app_assoc. reflexivity.
Qed.

(** X2.  Serving any requests from any database never rewrites history:
    the catalogue is unchanged, the transaction table only grows at its
    end (existing rows are kept as they are), and the user and purchase
    tables only grow at their end with the identity columns of the
    existing rows (id, username, password hash, referral code; id, owner,
    product, purchase time) unchanged.  No row is ever deleted. *)
Theorem history_only_grows :
  forall (s : db) (rs : list request),
    products (run rs s) = products s
    /\ (exists new, transactions (run rs s) = (transactions s ++ new)%list)
    /\ (exists new,
           map user_key (users (run rs s))
           = (map user_key (users s) ++ new)%list)
    /\ (exists new,
           map purchase_key (purchases (run rs s))
           = (map purchase_key (purchases s) ++ new)%list).
Proof.
  intros s rs.
  apply (run_invariant (extends s) (extends_step s)), extends_refl.
Qed.

(** ** Registration *)

Lemma find_nothing {A : Type} (f : A -> bool) (l : list A) :
  (forall x, In x l -> f x = false) -> find f l = None.
Proof.
  induction l as [|x l IH]; simpl; [reflexivity|].
  intros H. rewrite (H x (or_introl eq_refl)). apply IH.
  intros y Hy. apply H. right. exact Hy.
Qed.

Lemma existsb_taken_iff (name code : string) (us : list User) :
  existsb (fun u => String.eqb (username u) name
                    || String.eqb (referral_code u) code) us = false
  <-> ~ In name (map username us) /\ ~ In code (map referral_code us).
Proof.
  split; [apply existsb_taken|].
  induction us as [|u us IH]; simpl; [reflexivity|].
  intros [Hn Hc].
  assert (En : String.eqb (username u) name = false)
    by (apply String.eqb_neq; tauto).
  assert (Ec : String.eqb (referral_code u) code = false)
    by (apply String.eqb_neq; tauto).
  rewrite En, Ec. simpl. apply IH. tauto.
Qed.

(** X3.  [register] commits exactly when the username and the password
    are not empty and neither the username nor the generated referral code
    is already in the user table (a colliding referral code is refused
    like a taken username); otherwise the database is unchanged.  A
    committed registration appends one user with a fresh id, balance 0, no
    claim yet and [referred_by] as given, which is then the row found by
    id, by username and by referral code; every lookup of an earlier user
    and the other tables are as before. *)
Theorem register_then_lookup :
  forall (s : db) (name password pw_hash code : string) (ref : option string),
    let s' := fst (register POST name password pw_hash code ref s) in
    let done := is_registered
                  (snd (register POST name password pw_hash code ref s)) in
    let u := mkUser (next_id (user_ids s)) name pw_hash 0 code ref None in
    (done = true
     <-> name <> "" /\ password <> ""
         /\ ~ In name (map username (users s))
         /\ ~ In code (map referral_code (users s)))
    /\ (done = false -> s' = s)
    /\ (done = true ->
        users s' = (users s ++ [u])%list
        /\ get_user s' (u_id u) = Some u
        /\ user_by_username s' name = Some u
        /\ user_by_referral_code s' code = Some u
        /\ (forall uid, get_user s uid <> None ->
                        get_user s' uid = get_user s uid)
        /\ transactions s' = transactions s
        /\ products s' = products s
        /\ purchases s' = purchases s).
Proof.
  intros s name password pw_hash code ref s' done u.
  subst s' done u. unfold register.
  destruct (String.eqb name "") eqn:En; simpl.
  { apply String.eqb_eq in En. repeat split; try discriminate; tauto. }
  destruct (String.eqb password "") eqn:Ep; simpl.
  { apply String.eqb_eq in Ep. repeat split; try discriminate; tauto. }
  apply String.eqb_neq in En. apply String.eqb_neq in Ep.
  destruct (existsb _ (users s)) eqn:E; simpl.
  - split; [|split; [reflexivity | discriminate]].
    split; [discriminate|]. intros [_ [_ H]].
    apply existsb_taken_iff in H. congruence.
  - destruct (existsb_taken _ _ _ E) as [Hn Hc].
    split; [split; auto|]. split; [discriminate|]. intros _.
    split; [reflexivity|].
    assert (Hfresh : find (fun v => Nat.eqb (u_id v) (next_id (user_ids s)))
                          (users s) = None).
    { apply find_nothing. intros v Hv. apply Nat.eqb_neq. intros Heq.
      apply (next_id_fresh (user_ids s)).
      rewrite <- Heq. apply in_map, Hv. }
    split; [|split; [|split; [|split]]].
    + unfold get_user. simpl. rewrite find_append, Hfresh.
      simpl. rewrite Nat.eqb_refl. reflexivity.
    + unfold user_by_username. simpl. rewrite find_append.
      rewrite find_nothing.
      * simpl. rewrite String.eqb_refl. reflexivity.
      * intros v Hv. apply String.eqb_neq. intros Heq. apply Hn.
        rewrite <- Heq. apply in_map, Hv.
    + unfold user_by_referral_code. simpl. rewrite find_append.
      rewrite find_nothing.
      * simpl. rewrite String.eqb_refl. reflexivity.
      * intros v Hv. apply String.eqb_neq. intros Heq. apply Hc.
        rewrite <- Heq. apply in_map, Hv.
    + intros uid Hex. clear Hfresh. unfold get_user in *. simpl.
      rewrite find_append.
      destruct (find (fun v => Nat.eqb (u_id v) uid) (users s));
        [reflexivity | congruence].
    + auto.
Qed.

Lemma register_then_lookup_witness :
  user_by_referral_code
    (fst (register POST "bob" "secret" "pbkdf2:bob" "ABCD1234" None Sample.s1))
    "ABCD1234"
  = Some (mkUser 2 "bob" "pbkdf2:bob" 0 "ABCD1234" None None).
Proof.
  apply (register_then_lookup Sample.s1 "bob" "secret" "pbkdf2:bob"
                              "ABCD1234" None).
  reflexivity.
Defined.

(** ** Mining *)

Lemma accrued_to_refl (s : db) (now : datetime) (uid : nat) (p : Purchase) :
  accrued_to s now uid p p.
Proof. repeat split; auto. apply Z.le_refl. Qed.

Lemma accrue_accrued_to (s : db) (now : datetime) (uid : nat)
      (p p' : Purchase) :
  accrue s now p = Some p' -> owns uid p = true -> accrued_to s now uid p p'.
Proof.
  intros A O. pose proof (accrue_key s now p p' A) as K.
  unfold accrue in A. fold (mined_since p) in A.
  destruct (Qltb 0 (hours_between (mined_since p) now)) eqn:E.
  - destruct (product_of s p) as [product|] eqn:P; [|discriminate].
    injection A as <-.
    apply Qltb_lt in E. apply (proj1 (hours_between_pos _ _)) in E.
    split; [exact K|]. split; [congruence|].
    split; [unfold mined_since at 2; simpl; time_lia|].
    right. split; [exact E|]. split; [reflexivity|].
    exists product. split; [exact P | reflexivity].
  - injection A as <-. apply accrued_to_refl.
Qed.

Lemma accrue_all_accrued_to (s : db) (now : datetime) (uid : nat) :
  forall ps ps',
    accrue_all s now uid ps = Some ps' ->
    Forall2 (accrued_to s now uid) ps ps'.
Proof.
  induction ps as [|p ps IH]; intros ps' H; simpl in H.
  - injection H as <-. constructor.
  - destruct (owns uid p) eqn:O.
    + destruct (accrue s now p) as [p1|] eqn:A; [|discriminate].
      destruct (accrue_all s now uid ps) as [ps1|]; [|discriminate].
      injection H as <-.
      constructor; [apply accrue_accrued_to; assumption | apply IH; auto].
    + destruct (accrue_all s now uid ps) as [ps1|]; [|discriminate].
      injection H as <-.
      constructor; [apply accrued_to_refl | apply IH; auto].
Qed.




Lemma claimable_claimed (uid : nat) (p : Purchase) :
  claimable uid (claimed uid p) = false.
Proof.
  unfold claimed. destruct (claimable uid p) eqn:C; [|exact C].
  unfold claimable. simpl. apply andb_false_r.
Qed.

Lemma claim_loop_nothing (uid : nat) (ps : list Purchase) :
  Forall (fun p => claimable uid p = false) ps ->
  forall total, claim_loop uid ps total = (ps, total).
Proof.
  intros H. induction H as [|p ps Hp _ IH]; intros total; simpl;
    [reflexivity|].
  unfold claimable in Hp. rewrite Hp, IH. reflexivity.
Qed.

Lemma mining_claim_keeps_user (uid : nat) (user : User) (s : db) :
  get_user s uid = Some user ->
  exists user',
    get_user (fst (mining_claim uid s)) uid = Some user'
    /\ u_id user' = uid
    /\ purchases (fst (mining_claim uid s))
       = map (claimed uid) (purchases s).
Proof.
  intros G. rewrite (mining_claim_result uid user s G). simpl.
  destruct (get_user_some _ _ _ G) as [_ Hid].
  destruct (Qltb 0 _); simpl.
  - match goal with
    | |- context [get_user (add_transaction ?t ?x) uid] =>
      change (get_user (add_transaction t x) uid) with (get_user x uid)
    end.
    match goal with
    | |- context [get_user (with_users ?g (with_purchases ?ps s)) uid] =>
      change (get_user (with_users g (with_purchases ps s)) uid)
        with (get_user (with_users g s) uid)
    end.
    rewrite get_user_update by reflexivity. rewrite G. simpl.
    rewrite Hid, Nat.eqb_refl. eexists. repeat split. exact Hid.
  - exists user. repeat split; auto.
Qed.

(** X5.  Claiming mining earnings a second time right after a claim does
    nothing: the second [mining_claim] reports a total of 0, appends no
    row, credits nothing and leaves the database as the first one left
    it. *)
Theorem mining_claim_twice :
  forall (s : db) (uid : nat) (user : User),
    get_user s uid = Some user ->
    mining_claim uid (fst (mining_claim uid s))
    = (fst (mining_claim uid s),
       RedirectTo "balance" (Some (success, Claimed_from_mining 0))).
Proof.
  intros s uid user G.
  destruct (mining_claim_keeps_user uid user s G) as [user' [G' [Hid Hpur]]].
  set (s1 := fst (mining_claim uid s)) in *.
  unfold mining_claim at 1. rewrite G', Hid, Hpur.
  rewrite claim_loop_nothing.
  - simpl. rewrite <- Hpur, with_purchases_same. reflexivity.
  - apply Forall_forall. intros p Hp. apply in_map_iff in Hp.
    destruct Hp as [q [<- _]]. apply claimable_claimed.
Qed.

Lemma mining_claim_twice_witness :
  mining_claim 1 (fst (mining_claim 1 (fst (mining (hours 130) 1
                                              Sample.mining_db))))
  = (fst (mining_claim 1 (fst (mining (hours 130) 1 Sample.mining_db))),
     RedirectTo "balance" (Some (success, Claimed_from_mining 0))).
Proof.
  apply (mining_claim_twice
           (fst (mining (hours 130) 1 Sample.mining_db)) 1
           (mkUser 1 "alice" "pbkdf2:alice" (0 + 100 - 100) "AAAA1111"
                   (Some "ABCD1234") None)).
  reflexivity.
Defined.

(** ** Round trips of the balance *)



(** ** Isolation between sessions *)

Lemma get_user_other (s s' : db) (c uid : nat) (f : User -> User) :
  users s' = update_user c f (users s) ->
  (forall v, u_id (f v) = u_id v) ->
  c <> uid ->
  get_user s' uid = get_user s uid.
Proof.
  intros Hu Hid Hne. unfold get_user. rewrite Hu.
  rewrite find_update_user by exact Hid.
  destruct (find _ (users s)) as [v|] eqn:F; [|reflexivity]. simpl.
  apply find_some in F. destruct F as [_ F]. apply Nat.eqb_eq in F.
  rewrite F. apply Nat.eqb_neq in Hne. rewrite Nat.eqb_sym, Hne. reflexivity.
Qed.

Lemma owned_after_accrue (s : db) (now : datetime) (c uid : nat) :
  c <> uid ->
  forall ps ps',
    Forall2 (accrued_to s now c) ps ps' ->
    filter (owns uid) ps' = filter (owns uid) ps.
Proof.
  intros Hne ps ps' H. induction H as [|p p' ps ps' Hp _ IH]; simpl;
    [reflexivity|].
  destruct Hp as [K [Hother _]].
  assert (Ho : owns uid p' = owns uid p).
  { unfold owns. injection K as _ Hu _ _. rewrite Hu. reflexivity. }
  rewrite Ho, IH. destruct (owns uid p) eqn:O; [|reflexivity].
  rewrite Hother; [reflexivity|].
  unfold owns in *. apply Nat.eqb_eq in O. apply Nat.eqb_neq. congruence.
Qed.

Lemma owned_after_claimed (c uid : nat) (ps : list Purchase) :
  c <> uid ->
  filter (owns uid) (map (claimed c) ps) = filter (owns uid) ps.
Proof.
  intros Hne. induction ps as [|p ps IH]; simpl; [reflexivity|].
  rewrite owns_claimed, IH. destruct (owns uid p) eqn:O; [|reflexivity].
  unfold claimed, claimable.
  assert (Oc : owns c p = false).
  { unfold owns in *. apply Nat.eqb_eq in O. apply Nat.eqb_neq. congruence. }
  rewrite Oc. reflexivity.
Qed.

Lemma referral_update_other (user : User) (s : db) (u : User) :
  u_id u <> u_id user ->
  referral_update user s u = u
  \/ referral_update user s u = set_balance (balance u + referral_bonus) u.
Proof.
  intros Hne. unfold referral_update.
  destruct (truthy _); auto.
  destruct (user_by_referral_code _ _) as [rr|]; auto.
  apply Nat.eqb_neq in Hne.
  destruct (Nat.eqb (u_id u) (u_id rr)); simpl; rewrite Hne; auto.
Qed.

(** X7.  A request that is not served for user [uid] (another session, no
    session, or a registration) leaves the row of [uid] exactly as it was,
    with one exception: another user's accepted daily claim may credit the
    referral bonus 1.0 to the balance.  It never lowers the balance, never
    changes [last_claim_at] or [referred_by], and never touches a purchase
    of [uid]. *)
Theorem other_sessions_do_no_harm :
  forall (s : db) (r : request) (uid : nat) (u : User),
    get_user s uid = Some u ->
    session_user r <> Some uid ->
    (get_user (step s r) uid = Some u
     \/ get_user (step s r) uid
        = Some (set_balance (balance u + referral_bonus) u))
    /\ filter (owns uid) (purchases (step s r))
       = filter (owns uid) (purchases s).
Proof.
  intros s r uid u G Hs. unfold step.
  pose proof (get_user_id s uid u G) as Hu.
  destruct r as [m n p h c rf|[c|] m a|[c|] m a|[c|] m act a
                 |[c|] now|[c|] sl t1 t2|[c|] now|[c|]];
    simpl in *; auto;
    try (assert (Hne : c <> uid) by congruence).
  - unfold register. destruct m; auto.
    destruct (_ || _); auto. destruct (existsb _ _); auto.
    split; [|reflexivity]. left. unfold get_user in *. simpl.
    rewrite find_append, G. reflexivity.
  - unfold recharge. destruct m; auto.
    destruct (Qltb _ _); auto. destruct (get_user s c); auto.
    rewrite <- G. split; [|reflexivity]. left.
    eapply get_user_other; [reflexivity | reflexivity | exact Hne].
  - unfold topup. destruct m; auto.
    destruct (Qltb _ _); auto. destruct (get_user s c); auto.
    destruct (Qle_bool _ _); auto.
    rewrite <- G. split; [|reflexivity]. left.
    eapply get_user_other; [reflexivity | reflexivity | exact Hne].
  - unfold dollar. destruct m; auto.
    destruct (Qle_bool _ _); auto. destruct act as [a0|]; auto.
    destruct (String.eqb a0 "buy").
    + destruct (get_user s c); auto. destruct (Qle_bool _ _); auto.
      rewrite <- G. split; [|reflexivity]. left.
      eapply get_user_other; [reflexivity | reflexivity | exact Hne].
    + destruct (String.eqb a0 "sell"); auto. destruct (get_user s c); auto.
      rewrite <- G. split; [|reflexivity]. left.
      eapply get_user_other; [reflexivity | reflexivity | exact Hne].
  - destruct (get_user s c) as [user|] eqn:Gc;
      [|unfold daily_claim; rewrite Gc; auto].
    destruct (claim_too_soon user now) as [wait|] eqn:C.
    + rewrite (daily_claim_rejected now c user s wait Gc C). auto.
    + rewrite (daily_claim_accepted now c user s Gc C). simpl.
      split.
      * rewrite get_user_referral_effect, get_user_credited, G. simpl.
        rewrite Hu. apply Nat.eqb_neq in Hne.
        rewrite Nat.eqb_sym, Hne.
        destruct (referral_update_other user (credited now c s) u) as [-> | ->];
          auto.
        rewrite Hu, (get_user_id s c user Gc). apply Nat.eqb_neq.
        rewrite Nat.eqb_sym. exact Hne.
      * unfold referral_effect. destruct (truthy _); [|reflexivity].
        destruct (user_by_referral_code _ _); reflexivity.
  - unfold buy. destruct (get_user s c) as [user|] eqn:Gc;
      destruct (active_product_by_slug s sl) as [product|]; auto.
    destruct (Qltb _ _); auto. simpl. split.
    + rewrite <- G. left.
      eapply get_user_other; [reflexivity | reflexivity | exact Hne].
    + rewrite filter_app. simpl. unfold owns at 2. simpl.
      rewrite (get_user_id s c user Gc). apply Nat.eqb_neq in Hne.
      rewrite Hne. apply app_nil_r.
  - unfold mining. destruct (get_user s c) as [user|] eqn:Gc; auto.
    destruct (accrue_all _ _ _ _) as [ps|] eqn:A; auto. simpl.
    split; [left; exact G|].
    rewrite (get_user_id s c user Gc) in A.
    apply (owned_after_accrue s now c uid Hne _ _
                              (accrue_all_accrued_to _ _ _ _ _ A)).
  - destruct (get_user s c) as [user|] eqn:Gc;
      [|unfold mining_claim; rewrite Gc; auto].
    rewrite (mining_claim_result c user s Gc). simpl.
    destruct (Qltb 0 _); simpl.
    + split; [|apply owned_after_claimed, Hne].
      rewrite <- G. left.
      eapply get_user_other; [reflexivity | reflexivity | exact Hne].
    + split; [left; exact G | apply owned_after_claimed, Hne].
Qed.

Lemma other_sessions_do_no_harm_witness :
  get_user (step Sample.s2 (Sample.alice_claims (hours 24))) 2
  = Some (mkUser 2 "bob" "pbkdf2:bob" 0 "ABCD1234" None None)
  \/ get_user (step Sample.s2 (Sample.alice_claims (hours 24))) 2
     = Some (set_balance (0 + referral_bonus)
               (mkUser 2 "bob" "pbkdf2:bob" 0 "ABCD1234" None None)).
Proof.
  apply (other_sessions_do_no_harm
           Sample.s2 (Sample.alice_claims (hours 24)) 2
           (mkUser 2 "bob" "pbkdf2:bob" 0 "ABCD1234" None None) eq_refl).
  discriminate.
Defined.

(** ** The referral count of the dashboard and the profile *)

Lemma filter_map_length {A B : Type} (P : B -> bool) (Q : A -> bool)
      (g : A -> B) (l : list A) :
  (forall x, P (g x) = Q x) ->
  List.length (filter P (map g l)) = List.length (filter Q l).
Proof.
  intros H. induction l as [|x l IH]; simpl; [reflexivity|].
  rewrite H. destruct (Q x); simpl; rewrite IH; reflexivity.
Qed.

Lemma filter_except_absent (P : User -> bool) (uid : nat) (l : list User) :
  ~ In uid (map u_id l) ->
  filter (fun v => if Nat.eqb (u_id v) uid then false else P v) l
  = filter P l.
Proof.
  induction l as [|v l IH]; simpl; [reflexivity|].
  intros H. destruct (Nat.eqb (u_id v) uid) eqn:E.
  - apply Nat.eqb_eq in E. tauto.
  - rewrite IH by tauto. reflexivity.
Qed.

Lemma count_without (P : User -> bool) (u : User) (l : list User) :
  NoDup (map u_id l) -> In u l -> P u = true ->
  List.length (filter P l)
  = S (List.length
         (filter (fun v => if Nat.eqb (u_id v) (u_id u) then false else P v)
                 l)).
Proof.
  induction l as [|v l IH]; simpl; [tauto|].
  intros Hnd Hin Hp. inversion Hnd as [|x xs Hnotin Hnd']; subst.
  destruct Hin as [-> | Hin].
  - rewrite Nat.eqb_refl, Hp. simpl.
    rewrite (filter_except_absent P (u_id u) l Hnotin). reflexivity.
  - assert (E : Nat.eqb (u_id v) (u_id u) = false).
    { apply Nat.eqb_neq. intros Heq. apply Hnotin. rewrite Heq.
      apply in_map, Hin. }
    rewrite E. destruct (P v); simpl; rewrite (IH Hnd' Hin Hp); reflexivity.
Qed.

Lemma truthy_referred (u : User) :
  truthy (referred_by u) = true ->
  referred_by u = Some (referred_code u).
Proof.
  unfold truthy, referred_code. destruct (referred_by u); [reflexivity|].
  discriminate.
Qed.

Lemma refers_after_payout (now : datetime) (uid : nat) (user rr : User)
      (s : db) (code : string) :
  u_id user = uid ->
  truthy (referred_by user) = true ->
  user_by_referral_code s (referred_code user) = Some rr ->
  List.length
    (filter (refers code)
            (users (referral_effect user (credited now uid s))))
  = List.length
      (filter (fun v => if Nat.eqb (u_id v) uid then false else refers code v)
              (users s)).
Proof.
  intros Hid T R. unfold referral_effect.
  rewrite T, referrer_after_credit, R. simpl.
  unfold update_user. rewrite !map_map.
  apply filter_map_length. intros v. rewrite Hid.
  destruct (Nat.eqb (u_id v) uid) eqn:E; simpl;
    destruct (Nat.eqb (u_id rr) uid); simpl;
      destruct (Nat.eqb (u_id v) (u_id rr)); simpl; rewrite E; reflexivity.
Qed.

(** X8.  The number of referrals shown on the dashboard and the profile
    counts the users whose [referred_by] still holds the viewer's code.  A
    registration committed with that code in the session raises it by one;
    the accepted daily claim of a referred user that pays the referrer
    clears [referred_by] and so lowers the referrer's count by one again. *)
Theorem referral_count_moves :
  forall (s : db),
    NoDup (map u_id (users s)) ->
    (forall name password pw_hash code ref_code,
        is_registered
          (snd (register POST name password pw_hash code (Some ref_code) s))
        = true ->
        ref_count
          (fst (register POST name password pw_hash code (Some ref_code) s))
          ref_code
        = S (ref_count s ref_code))
    /\ (forall uid user rr now,
           get_user s uid = Some user ->
           claim_too_soon user now = None ->
           truthy (referred_by user) = true ->
           user_by_referral_code s (referred_code user) = Some rr ->
           let s' := fst (daily_claim now uid s) in
           ref_count s (referral_code rr)
           = S (ref_count s' (referral_code rr))
           /\ option_map snd (profile (u_id rr) s)
              = Some (S (ref_count s' (referral_code rr)))
           /\ option_map snd (profile (u_id rr) s')
              = Some (ref_count s' (referral_code rr))).
Proof.
  intros s Hnd. split.
  - intros name password pw_hash code ref_code.
    unfold register. destruct (_ || _); [discriminate|].
    destruct (existsb _ _); [discriminate|]. intros _.
    unfold ref_count. simpl. rewrite filter_app, length_app. simpl.
    unfold refers at 2. simpl. rewrite String.eqb_refl. simpl. lia.
  - intros uid user rr now G C T R s'.
    pose proof (get_user_some s uid user G) as [Hin Hid].
    assert (Hcode : referral_code rr = referred_code user).
    { unfold user_by_referral_code in R. apply find_some in R.
      destruct R as [_ R]. apply String.eqb_eq in R. exact R. }
    assert (Hrefers : refers (referral_code rr) user = true).
    { unfold refers. rewrite (truthy_referred user T), Hcode.
      apply String.eqb_refl. }
    assert (Hs : s' = referral_effect user (credited now uid s))
      by (unfold s'; rewrite (daily_claim_accepted now uid user s G C);
          reflexivity).
    assert (Hcount : ref_count s (referral_code rr)
                     = S (ref_count s' (referral_code rr))).
    { unfold ref_count. rewrite Hs.
      rewrite (refers_after_payout now uid user rr s _ Hid T R).
      rewrite <- Hid.
      apply (count_without (refers (referral_code rr)) user (users s)
                           Hnd Hin Hrefers). }
    split; [exact Hcount|].
    assert (Grr : get_user s (u_id rr) = Some rr).
    { apply keyed_get_user; [exact Hnd|].
      unfold user_by_referral_code in R. apply find_some in R. tauto. }
    split.
    + unfold profile. rewrite Grr. simpl. rewrite Hcount. reflexivity.
    + unfold profile.
      rewrite Hs, get_user_referral_effect, get_user_credited, Grr. simpl.
      match goal with
      | |- context [referral_update user ?s2 ?u1] =>
        destruct (referral_update_fields user s2 u1) as [_ [_ [-> _]]]
      end.
      destruct (Nat.eqb (u_id rr) uid); reflexivity.
Qed.

Lemma referral_count_moves_witness :
  ref_count Sample.s2 "ABCD1234" = S (ref_count Sample.s3 "ABCD1234").
Proof.
  refine (proj1 (proj2 (referral_count_moves Sample.s2 _)
                       1%nat
                       (mkUser 1 "alice" "pbkdf2:alice" (0 + 5) "AAAA1111"
                               (Some "ABCD1234") (Some 0%Z))
                       (mkUser 2 "bob" "pbkdf2:bob" 0 "ABCD1234" None None)
                       (hours 24) eq_refl eq_refl eq_refl eq_refl)).
  repeat constructor; simpl; intuition discriminate.
Defined.

(** ** The catalogue *)

Lemma find_listed (p : Product) (l : list Product) :
  NoDup (map slug l) -> In p l -> active p = true ->
  find (fun q => String.eqb (slug q) (slug p) && active q) l = Some p.
Proof.
  induction l as [|q l IH]; simpl; [tauto|].
  intros Hnd Hin Ha. inversion Hnd as [|x xs Hnotin Hnd']; subst.
  destruct Hin as [-> | Hin].
  - rewrite String.eqb_refl, Ha. reflexivity.
  - assert (E : String.eqb (slug q) (slug p) = false).
    { apply String.eqb_neq. intros Heq. apply Hnotin. rewrite Heq.
      apply in_map, Hin. }
    rewrite E. simpl. apply IH; assumption.
Qed.

(** X9.  With the unique constraint on [slug]: every product listed by
    [index] is the product its own page shows, and, for an existing user
    whose balance covers the price, the product [buy] sells under that
    slug.  Conversely a product page only ever shows a listed, active
    product with the requested slug. *)
Theorem listed_products_are_served :
  forall (s : db) (p : Product),
    NoDup (map slug (products s)) ->
    (In p (index s) ->
     product_page (slug p) s = Some p
     /\ forall uid user t1 t2,
         get_user s uid = Some user ->
         price p <= balance user ->
         snd (buy (slug p) t1 t2 uid s)
         = RedirectTo "mining" (Some (success, Product_purchased))
         /\ map product_id (purchases (fst (buy (slug p) t1 t2 uid s)))
            = (map product_id (purchases s) ++ [p_id p])%list)
    /\ forall sl, product_page sl s = Some p ->
                  In p (index s) /\ slug p = sl.
Proof.
  intros s p Hnd. split.
  - intros Hin. unfold index in Hin. apply filter_In in Hin.
    destruct Hin as [Hin Ha].
    assert (F : active_product_by_slug s (slug p) = Some p)
      by (apply find_listed; assumption).
    split; [exact F|].
    intros uid user t1 t2 G Hle. unfold buy. rewrite G, F.
    apply Qltb_ge in Hle. rewrite Hle. simpl.
    split; [reflexivity|]. rewrite map_app. reflexivity.
  - intros sl H. unfold product_page in H.
    destruct (active_product_by_slug_some s sl p H) as [Hin [Hs Ha]].
    split; [|exact Hs]. unfold index. apply filter_In. auto.
Qed.

Lemma listed_products_are_served_witness :
  product_page "pro-miner" Sample.funded_db
  = Some (mkProduct 2 "Pro Miner" "pro-miner" 250 (6 # 100) true).
Proof.
  apply (listed_products_are_served
           Sample.funded_db
           (mkProduct 2 "Pro Miner" "pro-miner" 250 (6 # 100) true)).
  - repeat constructor; simpl; intuition discriminate.
  - simpl. auto.
Defined.

(** X10.  [init_db] seeds the catalogue only when it is empty: it leaves
    a database with products untouched, running it twice is the same as
    running it once, and it never changes users, transactions or
    purchases.  In every database reached from the seeded empty database
    no hourly rate is negative and no purchase has a negative [accrued]. *)
Theorem init_db_seeds_once :
  forall s : db,
    init_db (init_db s) = init_db s
    /\ (products s <> [] -> init_db s = s)
    /\ (products s = [] -> products (init_db s) = seed_products)
    /\ users (init_db s) = users s
    /\ transactions (init_db s) = transactions s
    /\ purchases (init_db s) = purchases s
    /\ forall rs : list request,
        accrued_nonneg (run rs (init_db (empty_db []))).
Proof.
  intros s.
  assert (Hseeded : forall rs, accrued_nonneg (run rs (init_db (empty_db [])))).
  { intros rs. apply (run_accrued_nonneg seed_products rs).
    repeat constructor; simpl; vm_compute; discriminate. }
  assert (Hcases : (products s = []
                    /\ init_db s
                       = mkDb (users s) (transactions s) seed_products
                              (purchases s))
                   \/ (products s <> [] /\ init_db s = s)).
  { unfold init_db. destruct (products s) as [|p ps]; simpl.
    - left. auto.
    - right. split; [discriminate | reflexivity]. }
  destruct Hcases as [[P H] | [P H]]; rewrite H; rewrite ?H;
    (split; [|split; [|split; [|split; [|split; [|split]]]]]);
    try reflexivity; try tauto; try exact Hseeded.
Qed.

Lemma init_db_seeds_once_witness :
  init_db Sample.funded_db = Sample.funded_db.
Proof.
  apply (init_db_seeds_once Sample.funded_db). discriminate.
Defined.

(** ** No request fails *)

Lemma product_of_found (s : db) (p : Purchase) (product : Product) :
  In product (products s) -> product_id p = p_id product ->
  product_of s p <> None.
Proof.
  intros Hin Hid H. unfold product_of in H.
  apply (find_none _ _ H) in Hin. rewrite Hid, Nat.eqb_refl in Hin.
  discriminate.
Qed.

Lemma linked_ids (s : db) :
  linked s <->
  Forall (fun pid => find (fun pr => Nat.eqb (p_id pr) pid) (products s)
                     <> None)
         (map product_id (purchases s)).
Proof.
  unfold linked, product_of. rewrite Forall_map. reflexivity.
Qed.

Lemma purchase_key_products (ps ps' : list Purchase) :
  map purchase_key ps' = map purchase_key ps ->
  map product_id ps' = map product_id ps.
Proof.
  intros H.
  assert (Hp : forall l, map product_id l
                         = map (fun k => snd (fst k)) (map purchase_key l))
    by (intros l; rewrite map_map; reflexivity).
  rewrite (Hp ps'), (Hp ps), H. reflexivity.
Qed.

Lemma step_linked (s : db) (r : request) : linked s -> linked (step s r).
Proof.
  intros H. apply linked_ids. apply linked_ids in H.
  rewrite step_products.
  destruct (step_purchases_shape s r)
    as [K | [uid [user [product [t1 [t2 [_ [_ [Hin ->]]]]]]]]].
  - rewrite (purchase_key_products _ _ K). exact H.
  - rewrite map_app. apply Forall_app. split; [exact H|].
    repeat constructor. simpl. intros F.
    apply (find_none _ _ F) in Hin. rewrite Nat.eqb_refl in Hin.
    discriminate.
Qed.

Lemma accrue_all_total (s : db) (now : datetime) (uid : nat)
      (ps : list Purchase) :
  Forall (fun p => product_of s p <> None) ps ->
  accrue_all s now uid ps <> None.
Proof.
  intros H. induction H as [|p ps Hp _ IH]; simpl; [discriminate|].
  destruct (accrue_all s now uid ps) as [ps'|]; [|congruence].
  destruct (owns uid p); [|discriminate].
  unfold accrue. destruct (Qltb _ _); [|discriminate].
  destruct (product_of s p); [discriminate | congruence].
Qed.

Lemma step_keeps_users (s : db) (r : request) (uid : nat) :
  get_user s uid <> None -> get_user (step s r) uid <> None.
Proof.
  intros H. destruct (get_user s uid) as [u|] eqn:G; [|congruence].
  destruct (step_user s r uid u G) as [u' [G' _]]. congruence.
Qed.

(** A request served for an existing user, or without a session, on a
    database whose purchases all have a product. *)
Lemma handle_never_fails (s : db) (r : request) :
  linked s ->
  (forall uid, session_user r = Some uid -> get_user s uid <> None) ->
  snd (handle r s) <> ServerError.
Proof.
  intros Hl Hs.
  destruct r as [m n p h c rf|[uid|] m a|[uid|] m a|[uid|] m act a
                 |[uid|] now|[uid|] sl t1 t2|[uid|] now|[uid|]];
    simpl in *; try discriminate;
    try (specialize (Hs uid eq_refl);
         destruct (get_user s uid) as [user|] eqn:G; [|congruence]).
  - unfold register. destruct m; [discriminate|].
    destruct (_ || _); [discriminate|].
    destruct (existsb _ _); discriminate.
  - unfold recharge. destruct m; [discriminate|].
    destruct (Qltb _ _); [|discriminate]. rewrite G. discriminate.
  - unfold topup. destruct m; [discriminate|].
    destruct (Qltb _ _); [|discriminate]. rewrite G.
    destruct (Qle_bool _ _); discriminate.
  - unfold dollar. destruct m; [discriminate|].
    destruct (Qle_bool _ _); [discriminate|].
    destruct act as [a0|]; [|discriminate].
    destruct (String.eqb a0 "buy").
    + rewrite G. destruct (Qle_bool _ _); discriminate.
    + destruct (String.eqb a0 "sell"); [|discriminate].
      rewrite G. discriminate.
  - unfold daily_claim. rewrite G.
    destruct (claim_too_soon _ _); discriminate.
  - unfold buy. rewrite G.
    destruct (active_product_by_slug _ _); [|discriminate].
    destruct (Qltb _ _); discriminate.
  - unfold mining. rewrite G.
    destruct (accrue_all s now (u_id user) (purchases s)) eqn:A;
      [discriminate|].
    exfalso. apply (accrue_all_total s now (u_id user) (purchases s) Hl A).
  - rewrite (mining_claim_result uid user s G). discriminate.
Qed.




(** ** Sessions *)

Lemma session_user_with_session (c : session) (r : request) (uid : nat) :
  session_user (with_session c r) = Some uid -> sess_user_id c = Some uid.
Proof. destruct r; simpl; auto; discriminate. Qed.

Lemma user_by_username_exists (s : db) (name : string) (u : User) :
  user_by_username s name = Some u -> get_user s (u_id u) <> None.
Proof.
  unfold user_by_username, get_user. intros H. apply find_some in H.
  destruct H as [Hin _]. intros Hnone.
  apply (find_none _ _ Hnone) in Hin. rewrite Nat.eqb_refl in Hin. discriminate.
Qed.

Section SiteRuns.

Variable check_password_hash : string -> string -> bool.

Lemma serve_request (r : request) (c : session) (s : db) :
  exists c',
    serve check_password_hash (Request r) c s
    = (c', step s (with_session c r),
       Ledger (snd (handle (with_session c r) s)))
    /\ sess_user_id c' = sess_user_id c.
Proof.
  unfold step.
  destruct r; simpl;
    try (match goal with
         | |- context [let (_, _) := ?h in _] => destruct h
         end; exists c; auto).
  unfold register_session.
  destruct (register m name password pw_hash code (sess_ref c) s) as [s' resp].
  simpl. destruct (is_registered resp); eexists; split; reflexivity.
Qed.

Lemma serve_sound (v : visit) (c : session) (s : db) :
  linked s ->
  (forall uid, sess_user_id c = Some uid -> get_user s uid <> None) ->
  linked (snd (fst (serve check_password_hash v c s)))
  /\ (forall uid,
         get_user s uid <> None ->
         get_user (snd (fst (serve check_password_hash v c s))) uid <> None)
  /\ (forall uid,
         sess_user_id (fst (fst (serve check_password_hash v c s))) = Some uid ->
         get_user (snd (fst (serve check_password_hash v c s))) uid <> None)
  /\ snd (serve check_password_hash v c s) <> Ledger ServerError.
Proof.
  intros Hl Hc. destruct v as [code|m name password| |r].
  - simpl. repeat split; auto. discriminate.
  - simpl. unfold login. destruct m; simpl; [repeat split; auto; discriminate|].
    destruct (user_by_username s name) as [user|] eqn:U; simpl;
      [|repeat split; auto; discriminate].
    destruct (check_password_hash _ _); simpl;
      repeat split; auto; try discriminate.
    intros uid [= <-]. apply (user_by_username_exists s name user U).
  - simpl. repeat split; auto; discriminate.
  - destruct (serve_request r c s) as [c' [-> Hc']]. simpl.
    split; [apply step_linked, Hl|].
    split; [intros uid; apply step_keeps_users|].
    split.
    + intros uid H. rewrite Hc' in H. apply step_keeps_users, Hc, H.
    + intros [= H]. revert H. apply handle_never_fails; [exact Hl|].
      intros uid H. apply Hc. apply (session_user_with_session c r uid H).
Qed.

Lemma visit_site_sound (st : site) (bv : nat * visit) :
  sound st ->
  sound (fst (visit_site check_password_hash st bv))
  /\ snd (visit_site check_password_hash st bv) <> Ledger ServerError.
Proof.
  destruct st as [cookies s]. destruct bv as [browser v].
  intros [Hl Hc]. simpl in Hl, Hc.
  destruct (serve_sound v (cookies browser) s Hl (Hc browser))
    as [Hl' [Hkeep [Hc' Hrp]]].
  unfold visit_site.
  destruct (serve check_password_hash v (cookies browser) s)
    as [[c' s'] rp]. simpl in *.
  split; [|exact Hrp]. split; [exact Hl'|].
  intros b uid. simpl. destruct (Nat.eqb b browser); [apply Hc'|].
  intros H. apply Hkeep, (Hc b uid H).
Qed.

Lemma browse_sound (vs : list (nat * visit)) :
  forall st : site,
    sound st ->
    sound (fst (browse check_password_hash vs st))
    /\ Forall (fun rp => rp <> Ledger ServerError)
              (snd (browse check_password_hash vs st)).
Proof.
  induction vs as [|bv vs IH]; intros st Hst; simpl; [auto|].
  destruct (visit_site_sound st bv Hst) as [Hst' Hrp].
  destruct (visit_site check_password_hash st bv) as [st' rp]. simpl in *.
  destruct (IH st' Hst') as [Hfinal Hrps].
  destruct (browse check_password_hash vs st') as [final rps]. simpl in *.
  split; [exact Hfinal | constructor; assumption].
Qed.

(** X12.  Whatever any number of browsers do, in any order, starting from
    an empty database and empty sessions (referral links, registrations,
    logins with any password check, logouts, and every ledger request with
    the session of its browser): no reply is the failure of a missing row,
    and every logged-in session holds the id of an existing user, for whom
    the dashboard and the profile render. *)
Theorem site_never_fails :
  forall (catalogue : list Product) (vs : list (nat * visit)),
    let result := browse check_password_hash vs (fresh_site catalogue) in
    Forall (fun rp => rp <> Ledger ServerError) (snd result)
    /\ forall b uid,
        sess_user_id (fst (fst result) b) = Some uid ->
        get_user (snd (fst result)) uid <> None
        /\ dashboard uid (snd (fst result)) <> None
        /\ profile uid (snd (fst result)) <> None.
Proof.
  intros catalogue vs result.
  assert (H0 : sound (fresh_site catalogue)).
  { split; [constructor|]. intros b uid. discriminate. }
  destruct (browse_sound vs _ H0) as [[_ Hc] Hrps]. fold result in Hc, Hrps.
  split; [exact Hrps|].
  intros b uid H. specialize (Hc b uid H).
  unfold dashboard, profile.
  destruct (get_user (snd (fst result)) uid); [|congruence].
  repeat split; discriminate.
Qed.

End SiteRuns.

Lemma site_never_fails_witness :
  dashboard 1
    (snd (fst (browse (fun _ _ => true)
                      [(0%nat, Request Sample.alice_registers);
                       (0%nat, Login POST "alice" "secret")]
                      (fresh_site seed_products))))
  <> None.
Proof.
  apply (proj2 (site_never_fails
                  (fun _ _ => true) seed_products
                  [(0%nat, Request Sample.alice_registers);
                   (0%nat, Login POST "alice" "secret")])
               0%nat 1%nat).
  reflexivity.
Defined.

Lemma run_unique_users (catalogue : list Product) (rs : list request) :
  unique_users (run rs (empty_db catalogue)).
Proof.
  apply (run_invariant unique_users step_unique_users).
  repeat split; constructor.
Qed.

Lemma find_by_username (u : User) (l : list User) :
  NoDup (map username l) -> In u l ->
  find (fun v => String.eqb (username v) (username u)) l = Some u.
Proof.
  induction l as [|v l IH]; simpl; [tauto|].
  intros Hnd Hin. inversion Hnd as [|x xs Hnotin Hnd']; subst.
  destruct Hin as [-> | Hin].
  - rewrite String.eqb_refl. reflexivity.
  - assert (E : String.eqb (username v) (username u) = false).
    { apply String.eqb_neq. intros Heq. apply Hnotin. rewrite Heq.
      apply in_map, Hin. }
    rewrite E. apply IH; assumption.
Qed.

(** X13.  In every database reached from an empty one, [login] with the
    username of a user decides on that user's stored hash alone: when the
    check passes the session gets that user's id, which [db.get] resolves
    to the very same row, and the pending referral code stays; when it
    does not pass, or when no user has the username, the session is left
    as it was (a logged-in browser stays logged in).  After [logout] every
    route behind [login_required] redirects to the login page and leaves
    the database unchanged. *)
Theorem login_and_logout :
  forall (check_password_hash : string -> string -> bool)
         (catalogue : list Product) (rs : list request)
         (name password : string) (c : session),
    let s := run rs (empty_db catalogue) in
    (forall u,
        In u (users s) -> username u = name ->
        get_user s (u_id u) = Some u
        /\ login check_password_hash POST name password c s
           = if check_password_hash (password_hash u) password
             then (mkSession (Some (u_id u)) (sess_ref c),
                   AuthRedirect "dashboard" (Some (success, Logged_in)))
             else (c, AuthRedirect "login"
                        (Some (danger, Invalid_credentials))))
    /\ (~ In name (map username (users s)) ->
        login check_password_hash POST name password c s
        = (c, AuthRedirect "login" (Some (danger, Invalid_credentials))))
    /\ forall r : request,
        match r with
        | Register _ _ _ _ _ _ => True
        | _ =>
          handle (with_session (fst (logout c)) r) s
          = (s, RedirectTo "login" (Some (warning, Please_log_in)))
        end.
Proof.
  intros check catalogue rs name password c s.
  destruct (run_unique_users catalogue rs) as [Hid [Hn _]].
  fold s in Hid, Hn.
  split; [|split].
  - intros u Hin <-.
    split; [apply keyed_get_user; assumption|].
    unfold login, user_by_username.
    rewrite (find_by_username u (users s) Hn Hin). reflexivity.
  - intros Hnot. unfold login, user_by_username.
    rewrite find_nothing; [reflexivity|].
    intros v Hv. apply String.eqb_neq. intros Heq. apply Hnot.
    rewrite <- Heq. apply in_map, Hv.
  - intros r. destruct r; simpl; auto.
Qed.

Lemma login_and_logout_witness :
  login (fun h p => String.eqb h ("pbkdf2:" ++ p)) POST "alice" "alice"
        no_session Sample.s1
  = (mkSession (Some 1%nat) None,
     AuthRedirect "dashboard" (Some (success, Logged_in))).
Proof.
  apply (proj1 (login_and_logout
                  (fun h p => String.eqb h ("pbkdf2:" ++ p)) seed_products
                  [Sample.alice_registers; Sample.alice_claims 0]
                  "alice" "alice" no_session)
               (mkUser 1 "alice" "pbkdf2:alice" (0 + 5) "AAAA1111"
                       (Some "ABCD1234") (Some 0%Z))).
  - left. reflexivity.
  - reflexivity.
Defined.

(** X14.  A referral link stores its code in the session without checking
    that any user has it.  The next registration of that browser that is
    committed stores the code as [referred_by] of the new user and removes
    it from the session, so that a further registration from the same
    session is not referred; a registration that is refused leaves the
    database unchanged and keeps the code pending.  Neither step logs the
    browser in or out. *)
Theorem referral_link_is_used_once :
  forall (s : db) (c : session) (code name password pw_hash gen : string),
    let c1 := fst (referral_entry code c) in
    let out := register_session POST name password pw_hash gen c1 s in
    let c2 := fst (fst out) in
    let s2 := snd (fst out) in
    let committed :=
        Ledger (RedirectTo "login" (Some (success, Registration_successful))) in
    sess_user_id c1 = sess_user_id c
    /\ sess_ref c1 = Some code
    /\ sess_user_id c2 = sess_user_id c
    /\ (snd out = committed ->
        users s2
        = (users s
             ++ [mkUser (next_id (user_ids s)) name pw_hash 0 gen (Some code)
                        None])%list
        /\ sess_ref c2 = None
        /\ forall n2 p2 h2 g2,
            snd (register_session POST n2 p2 h2 g2 c2 s2) = committed ->
            users (snd (fst (register_session POST n2 p2 h2 g2 c2 s2)))
            = (users s2
                 ++ [mkUser (next_id (user_ids s2)) n2 h2 0 g2 None None])%list)
    /\ (snd out <> committed -> s2 = s /\ sess_ref c2 = Some code).
Proof.
  intros s c code name password pw_hash gen c1 out c2 s2 committed.
  subst c1 out c2 s2 committed. unfold register_session, register. simpl.
  destruct (_ || _); simpl.
  { repeat split; try discriminate; congruence. }
  destruct (existsb _ (users s)); simpl.
  { repeat split; try discriminate; congruence. }
  repeat split; try congruence.
  intros n2 p2 h2 g2.
  destruct (_ || _); simpl; [discriminate|].
  destruct (existsb _ _); simpl; [discriminate|]. reflexivity.
Qed.

Lemma referral_link_is_used_once_witness :
  users (snd (fst (register_session
                     POST "alice" "secret" "pbkdf2:alice" "AAAA1111"
                     (fst (referral_entry "ABCD1234" no_session))
                     (empty_db seed_products))))
  = [mkUser 1 "alice" "pbkdf2:alice" 0 "AAAA1111" (Some "ABCD1234") None].
Proof.
  apply (referral_link_is_used_once
           (empty_db seed_products) no_session
           "ABCD1234" "alice" "secret" "pbkdf2:alice" "AAAA1111").
  reflexivity.
Defined.

(** ** The purchase table *)

Lemma purchase_key_ids (ps ps' : list Purchase) :
  map purchase_key ps' = map purchase_key ps ->
  map pu_id ps' = map pu_id ps /\ map pu_user_id ps' = map pu_user_id ps.
Proof.
  intros H.
  assert (Hi : forall l, map pu_id l
                         = map (fun k => fst (fst (fst k)))
                               (map purchase_key l))
    by (intros l; rewrite map_map; reflexivity).
  assert (Ho : forall l, map pu_user_id l
                         = map (fun k => snd (fst (fst k)))
                               (map purchase_key l))
    by (intros l; rewrite map_map; reflexivity).
  rewrite (Hi ps'), (Hi ps), (Ho ps'), (Ho ps), H. auto.
Qed.

Lemma accrue_all_mined (s : db) (now : datetime) (uid : nat) :
  forall ps ps',
    accrue_all s now uid ps = Some ps' ->
    Forall (fun p => last_mined_at p <> None) ps ->
    Forall (fun p => last_mined_at p <> None) ps'.
Proof.
  intros ps ps' A H.
  pose proof (accrue_all_accrued_to s now uid ps ps' A) as F.
  induction F as [|p p' ps ps' Hp _ IH]; [constructor|].
  inversion H as [|x l Hx Hrest]; subst.
  constructor.
  - destruct Hp as [_ [_ [_ [-> | [_ [-> _]]]]]]; [exact Hx | discriminate].
  - apply IH; [|exact Hrest].
    clear - A. simpl in A. destruct (owns uid p).
    + destruct (accrue s now p); [|discriminate].
      destruct (accrue_all s now uid ps); [|discriminate].
      injection A as _ ->. reflexivity.
    + destruct (accrue_all s now uid ps); [|discriminate].
      injection A as _ ->. reflexivity.
Qed.

Lemma claimed_mined (uid : nat) (ps : list Purchase) :
  Forall (fun p => last_mined_at p <> None) ps ->
  Forall (fun p => last_mined_at p <> None) (map (claimed uid) ps).
Proof.
  intros H. induction H as [|p ps Hp _ IH]; simpl; constructor; [|exact IH].
  unfold claimed. destruct (claimable uid p); exact Hp.
Qed.

Lemma step_mined (s : db) (r : request) :
  Forall (fun p => last_mined_at p <> None) (purchases s) ->
  Forall (fun p => last_mined_at p <> None) (purchases (step s r)).
Proof.
  intros H. unfold step.
  destruct r as [m n p h c rf|[uid|] m a|[uid|] m a|[uid|] m act a
                 |[uid|] now|[uid|] sl t1 t2|[uid|] now|[uid|]];
    simpl; auto.
  - unfold register. destruct m; auto.
    destruct (_ || _); auto. destruct (existsb _ _); auto.
  - unfold recharge. destruct m; auto.
    destruct (Qltb _ _); auto. destruct (get_user _ _); auto.
  - unfold topup. destruct m; auto.
    destruct (Qltb _ _); auto. destruct (get_user _ _); auto.
    destruct (Qle_bool _ _); auto.
  - unfold dollar. destruct m; auto.
    destruct (Qle_bool _ _); auto. destruct act as [a0|]; auto.
    destruct (String.eqb a0 "buy").
    + destruct (get_user _ _); auto. destruct (Qle_bool _ _); auto.
    + destruct (String.eqb a0 "sell"); auto. destruct (get_user _ _); auto.
  - unfold daily_claim. destruct (get_user _ _) as [user|]; auto.
    destruct (claim_too_soon _ _); auto. simpl.
    unfold referral_effect. destruct (truthy _); auto.
    destruct (user_by_referral_code _ _); auto.
  - unfold buy. destruct (get_user _ _);
      destruct (active_product_by_slug _ _); auto.
    destruct (Qltb _ _); auto. simpl.
    apply Forall_app. split; [exact H|]. repeat constructor. discriminate.
  - unfold mining. destruct (get_user _ _) as [user|]; auto.
    destruct (accrue_all _ _ _ _) as [ps|] eqn:A; auto. simpl.
    apply (accrue_all_mined _ _ _ _ _ A H).
  - destruct (get_user s uid) as [user|] eqn:G;
      [|unfold mining_claim; rewrite G; auto].
    rewrite (mining_claim_result uid user s G). simpl.
    destruct (Qltb 0 _); simpl; apply claimed_mined, H.
Qed.

Lemma step_purchases_ok (s : db) (r : request) :
  purchases_ok s -> purchases_ok (step s r).
Proof.
  intros [Hnd Hall].
  assert (Hm : Forall (fun p => last_mined_at p <> None) (purchases (step s r))).
  { apply step_mined. eapply Forall_impl; [|exact Hall]. simpl. tauto. }
  assert (Ho : Forall (fun uid => get_user s uid <> None)
                      (map pu_user_id (purchases s))).
  { rewrite Forall_map. eapply Forall_impl; [|exact Hall]. simpl. tauto. }
  assert (Hkeep : forall l,
             Forall (fun uid => get_user s uid <> None) l ->
             Forall (fun uid => get_user (step s r) uid <> None) l).
  { intros l Hl. eapply Forall_impl; [|exact Hl].
    intros uid. apply step_keeps_users. }
  assert (Ho' : Forall (fun uid => get_user (step s r) uid <> None)
                       (map pu_user_id (purchases (step s r)))
                /\ NoDup (map pu_id (purchases (step s r)))).
  { destruct (step_purchases_shape s r)
      as [K | [uid [user [product [t1 [t2 [_ [G [_ E]]]]]]]]].
    - destruct (purchase_key_ids _ _ K) as [-> ->]. auto.
    - rewrite E, !map_app. simpl. split.
      + apply Forall_app. split; [apply Hkeep, Ho|].
        repeat constructor. apply step_keeps_users. congruence.
      + apply NoDup_snoc; [exact Hnd | apply next_id_fresh]. }
  destruct Ho' as [Ho' Hnd'].
  split; [exact Hnd'|].
  rewrite Forall_map in Ho'.
  apply Forall_forall. intros p Hp.
  rewrite Forall_forall in Ho', Hm. auto.
Qed.

(** X15.  In every database reached from an empty one, purchase ids are
    pairwise distinct, every purchase belongs to an existing user, and
    [last_mined_at] of every purchase is set: accrual always counts from
    [last_mined_at], and the fallback to [purchased_at] in [mining] is
    never taken. *)
Theorem purchases_are_well_formed :
  forall (catalogue : list Product) (rs : list request),
    let s := run rs (empty_db catalogue) in
    NoDup (map pu_id (purchases s))
    /\ Forall (fun p =>
                 get_user s (pu_user_id p) <> None
                 /\ exists t, last_mined_at p = Some t /\ mined_since p = t)
              (purchases s).
Proof.
  intros catalogue rs s.
  assert (H : purchases_ok s).
  { apply (run_invariant purchases_ok step_purchases_ok).
    split; constructor. }
  destruct H as [Hnd Hall]. split; [exact Hnd|].
  eapply Forall_impl; [|exact Hall].
  intros p [Ho Hm]. split; [exact Ho|].
  unfold mined_since. destruct (last_mined_at p) as [t|]; [|congruence].
  exists t. auto.
Qed.
